(** * The resilient request wrapper [apiFetch] of src/app.js

    A shallow embedding of the enhanced [apiFetch] (timeout, retry loop,
    content-type driven decoding, error classification) together with the
    small part of the browser platform it talks to: timers, [fetch], and the
    body readers of a [Response].

    The platform is modelled as a world that records every timer and network
    event in a trace; the transport is an oracle telling, for the n-th call
    of [fetch], how that call settles, and a second oracle tells which of
    the timers left armed go off while the call is suspended.

    The page scripts of src/app.js and src/script.js ([setStatus],
    [getApiKey], [apiFetch], [renderLogs], [refreshLogs], [submitLog],
    [exportCSV]) are embedded after it, over a page that holds local storage,
    the elements the scripts look up, the requests made, the console and the
    downloads offered. *)

From Stdlib Require Import ZArith String List Lia Bool.
From stdpp Require Import base gmap strings pretty.
Import ListNotations.
Local Open Scope Z_scope.
Set Warnings "-register-all,-clear-no-such-hyp".

(** ** Numbers *)

(** A JavaScript number is an IEEE 754 double.  The model keeps the numbers
    of the options and of JSON bodies that are integers, each as the integer
    it is ([-0] as [0]); what a product of two of them gives is a double
    again: the nearest one, or an infinity. *)
Inductive Number : Type :=
| Finite (n : Z)
| Infinity (negative : bool).

(** The double nearest to the integer [x]: [x] itself below [2^53];
    from there on a significand of 53 bits, rounded to the nearest, to the
    even one of two as near, and an infinity from [2^1024] on. *)
Definition double (x : Z) : Number :=
  let a := Z.abs x in
  if a <? 2 ^ 53 then Finite x
  else
    let e := Z.log2 a - 52 in
    let q := a / 2 ^ e in
    let r := a mod 2 ^ e in
    let half := 2 ^ (e - 1) in
    let m := if (half <? r) || ((r =? half) && Z.odd q) then q + 1 else q in
    let v := m * 2 ^ e in
    if v <? 2 ^ 1024 then Finite (Z.sgn x * v) else Infinity (x <? 0).

(** [a * b] *)
Definition js_mul (a b : Z) : Number := double (a * b).

(** The integer [c], taken as a decimal literal, denotes the double [v]. *)
Definition denotes (c v : Z) : bool :=
  match double c with
  | Finite d => d =? v
  | Infinity _ => false
  end.

(** Number::toString picks, among the decimals that denote [v], one with
    the fewest significant digits, of several the nearest to [v], and of two
    as near the one whose last digit is even.  [shortest] tries [k]
    significant digits, then [k + 1], up to 17, which always suffice; a
    decimal of [k] digits is a multiple of [10 ^ (digits - k)], and only the
    two that enclose [v] can be the nearest. *)
Fixpoint shortest (v digits : Z) (k fuel : nat) : Z :=
  match fuel with
  | O => v
  | S fuel' =>
      let p := digits - Z.of_nat k in
      if p <=? 0 then v
      else
        let unit := 10 ^ p in
        let below := v / unit * unit in
        let above := below + unit in
        match denotes below v, denotes above v with
        | true, true =>
            if v - below <? above - v then below
            else if above - v <? v - below then above
            else if Z.even (below / unit) then below else above
        | true, false => below
        | false, true => above
        | false, false => shortest v digits (S k) fuel'
        end
  end.

Fixpoint strip_zeros (rev_digits : string) : string :=
  match rev_digits with
  | String c rest =>
      if Ascii.eqb c (Ascii.ascii_of_nat 48) then strip_zeros rest else rev_digits
  | EmptyString => EmptyString
  end.

(** The digits of a decimal without its trailing zeros. *)
Definition significant (digits : string) : string :=
  String.rev (strip_zeros (String.rev digits)).

(** [d.ddde+x], the form of a number of [1e21] or more. *)
Definition exponent_form (digits : string) : string :=
  match significant digits with
  | EmptyString => "0"
  | String d EmptyString =>
      String d "e+" +:+ pretty (Z.of_nat (String.length digits) - 1)
  | String d rest =>
      String d ("." +:+ rest) +:+ "e+"
      +:+ pretty (Z.of_nat (String.length digits) - 1)
  end.

(** Number::toString of a double [v >= 0] that is an integer.  Below [2^53]
    every integer is a double and no shorter decimal denotes it. *)
Definition print_natural (v : Z) : string :=
  if v <? 2 ^ 53 then pretty v
  else
    let digits := pretty (shortest v (Z.of_nat (String.length (pretty v))) 1 17) in
    if (String.length digits <=? 21)%nat then digits else exponent_form digits.

(** [String(n)], [`${n}`] *)
Definition number_to_string (n : Z) : string :=
  if n <? 0 then "-" +:+ print_natural (- n) else print_natural n.

(** ** JavaScript values *)

(** The values a response body can decode to, plus [undefined].  Of the JSON
    numbers the model has the integers; a number with a fraction is truthy
    and has no fields, like an integer that is not zero, and differs from
    one only in the digits it prints. *)
Inductive JsValue : Type :=
| JUndefined
| JNull
| JBool (b : bool)
| JNum (n : Z)
| JStr (s : string)
| JArr (items : list JsValue)
| JObj (fields : list (string * JsValue))
| JBlob (bytes : list Byte.byte)
| JBuffer (bytes : list Byte.byte).

(** ToBoolean. *)
Definition truthy (v : JsValue) : bool :=
  match v with
  | JUndefined | JNull => false
  | JBool b => b
  | JNum n => negb (n =? 0)
  | JStr s => negb (String.eqb s "")
  | JArr _ | JObj _ | JBlob _ | JBuffer _ => true
  end.

(** [a || b]: the first operand when it is truthy, else the second. *)
Definition js_or (a b : JsValue) : JsValue := if truthy a then a else b.

Notation "a ||| b" := (js_or a b) (at level 50, left associativity).

(** Own-property lookup in an object literal. *)
Fixpoint assoc (k : string) (fields : list (string * JsValue)) : JsValue :=
  match fields with
  | [] => JUndefined
  | (k', v) :: rest => if String.eqb k k' then v else assoc k rest
  end.

(** [v?.k] for the two keys the wrapper reads, [message] and [error]: only a
    plain object can carry them; [null], [undefined], primitives, arrays,
    blobs and buffers give [undefined]. *)
Definition opt_get (v : JsValue) (k : string) : JsValue :=
  match v with
  | JObj fields => assoc k fields
  | _ => JUndefined
  end.

(** ToString, as applied by [new Error(x)] and by template literals. *)
Fixpoint to_string (v : JsValue) : string :=
  match v with
  | JUndefined => "undefined"
  | JNull => "null"
  | JBool true => "true"
  | JBool false => "false"
  | JNum n => number_to_string n
  | JStr s => s
  | JArr items =>
      String.concat ","
        (map (fun x => match x with
                       | JUndefined | JNull => ""
                       | _ => to_string x
                       end) items)
  | JObj _ => "[object Object]"
  | JBlob _ => "[object Blob]"
  | JBuffer _ => "[object ArrayBuffer]"
  end.

(** [s.includes(sub)]. *)
Fixpoint includes (sub s : string) : bool :=
  if String.prefix sub s then true
  else match s with
       | EmptyString => false
       | String _ rest => includes sub rest
       end.

(** ** Errors, promises, responses *)

(** An [Error] object with the properties the wrapper sets or reads. *)
Record Error : Type := mkError {
  err_name : string;
  err_message : string;
  err_status : option Z;
  err_statusText : option string;
  err_data : option JsValue;
  err_url : option string
}.

(** [new Error(msg)] *)
Definition new_Error (msg : string) : Error :=
  mkError "Error" msg None None None None.

(** What [fetch] rejects with when its signal is aborted. *)
Definition AbortError : Error :=
  mkError "AbortError" "The operation was aborted." None None None None.

(** What [fetch] rejects with when the network fails. *)
Definition TypeError (msg : string) : Error :=
  mkError "TypeError" msg None None None None.

(** A settled promise. *)
Inductive Settled (A : Type) : Type :=
| Fulfilled (a : A)
| Rejected (e : Error).
Arguments Fulfilled {A} a.
Arguments Rejected {A} e.

(** A [Response]: status line, declared content type, and what each body
    reader settles to when it is the first to read the body.  [res_blob] and
    [res_arrayBuffer] are [None] when the object has no such method (the
    source calls them with [?.()]).  [res_no_body] tells that the response
    has no body ([res.body] is [null]: a status such as 204 or 304, or the
    answer to a [HEAD] request), and [res_used_message] is the message of
    the [TypeError] that a reader rejects with when the body was read
    before, which each browser words in its own way. *)
Record Response : Type := mkResponse {
  res_status : Z;
  res_statusText : string;
  res_content_type : option string;
  res_json : Settled JsValue;
  res_text : Settled string;
  res_blob : option (Settled (list Byte.byte));
  res_arrayBuffer : option (Settled (list Byte.byte));
  res_no_body : bool;
  res_used_message : string
}.

(** [res.text()] after another reader was called, whether that one
    fulfilled or not: the body is used up and [text()] rejects.  Only a
    response without a body is never used up: it reads as the empty text
    each time. *)
Definition text_again (res : Response) : Settled string :=
  if res_no_body res then Fulfilled ""
  else Rejected (TypeError (res_used_message res)).

(** [res.ok]: the status is in the range 200-299. *)
Definition res_ok (res : Response) : bool :=
  (200 <=? res_status res) && (res_status res <=? 299).

(** ** Call options *)

(** The fields of [opts] that the wrapper does not consume. *)
Record FetchOptions : Type := mkFetchOptions {
  fo_method : option string;
  fo_body : option string;
  fo_headers : option (gmap string string)
}.

(** [opts]; [None] is an absent field. *)
Record Options : Type := mkOptions {
  opt_timeout : option Z;
  opt_retries : option Z;
  opt_retryDelay : option Z;
  opt_includeCredentials : option bool;
  opt_rest : FetchOptions
}.

(** The second argument of [fetch]. *)
Record FetchInit : Type := mkFetchInit {
  init_method : option string;
  init_body : option string;
  init_headers : gmap string string;
  init_credentials : string;
  init_signal : nat
}.

(** ** The platform *)

(** What the page does to the platform, and what the platform does back:
    - [EvSetTimeout id ms]: an abort timer of [ms] milliseconds is armed;
    - [EvFetch url init]: a network attempt is issued;
    - [EvClearTimeout id]: timer [id] is cancelled;
    - [EvAbort id]: timer [id] fired and aborted the controller of its
      attempt;
    - [EvDelay ms]: the call waited for a timer of [ms] milliseconds. *)
Inductive Event : Type :=
| EvSetTimeout (id : nat) (ms : Z)
| EvFetch (url : string) (init : FetchInit)
| EvClearTimeout (id : nat)
| EvAbort (id : nat)
| EvDelay (ms : Number).

(** How one call of [fetch] settles: it resolves with a response before the
    timer of the attempt fires; or the timer fires first, the signal is
    aborted and [fetch] rejects with an [AbortError]; or the network fails
    before the timer fires and [fetch] rejects with a [TypeError]. *)
Inductive FetchOutcome : Type :=
| Resolves (res : Response)
| TimerFires
| NetworkFailure (msg : string).

(** The state of the platform: the events so far (oldest first), the timers
    that are armed (set, and neither cleared nor fired), the timers that
    went off after their attempt was over, the next timer id, and the number
    of [fetch] calls made. *)
Record World : Type := mkWorld {
  trace : list Event;
  armed : gset nat;
  expired : gset nat;
  next_timer : nat;
  fetches : nat
}.

Definition initial_world : World := mkWorld [] ∅ ∅ 0%nat 0%nat.

Definition log (ev : Event) (w : World) : World :=
  mkWorld (trace w ++ [ev]) (armed w) (expired w) (next_timer w) (fetches w).

(** ** Completions and the monad of asynchronous code *)

Inductive Completion (A : Type) : Type :=
| Normal (a : A)
| Throw (e : Error).
Arguments Normal {A} a.
Arguments Throw {A} e.

Definition Async (A : Type) : Type := World -> Completion A * World.

Definition ret {A} (a : A) : Async A := fun w => (Normal a, w).

Definition throw {A} (e : Error) : Async A := fun w => (Throw e, w).

Definition bind {A B} (c : Async A) (k : A -> Async B) : Async B :=
  fun w => match c w with
           | (Normal a, w') => k a w'
           | (Throw e, w') => (Throw e, w')
           end.

Notation "'let*' x ':=' c 'in' k" := (bind c (fun x => k))
  (at level 10, x name, c at level 100, k at level 200).

(** A computation that does not touch the world. *)
Definition lift {A} (c : Completion A) : Async A := fun w => (c, w).

(** [await p] *)
Definition await {A} (p : Settled A) : Completion A :=
  match p with
  | Fulfilled a => Normal a
  | Rejected e => Throw e
  end.

(** [try { body } catch (e) { handler e }] without effects. *)
Definition try_catch {A} (body : Completion A) (handler : Error -> Completion A)
  : Completion A :=
  match body with
  | Normal a => Normal a
  | Throw e => handler e
  end.

(** [setTimeout(() => controller.abort(), ms)] *)
Definition setTimeout (ms : Z) : Async nat := fun w =>
  let id := next_timer w in
  (Normal id,
   mkWorld (trace w ++ [EvSetTimeout id ms]) ({[ id ]} ∪ armed w) (expired w)
           (S id) (fetches w)).

(** [clearTimeout(id)] *)
Definition clearTimeout (id : nat) : Async unit := fun w =>
  (Normal tt,
   mkWorld (trace w ++ [EvClearTimeout id]) (armed w ∖ {[ id ]}) (expired w)
           (next_timer w) (fetches w)).

(** Time passes while the call is suspended, and of the timers that are
    armed those that [late] names go off: [late] is the set of timers whose
    time is up.  The timer [own] of an attempt in flight is left out, [fetch]
    answers for it.  A timer that goes off here aborts the controller of an
    attempt that is over, and nothing else happens. *)
Definition pass_time (late : nat -> bool) (own : option nat) (w : World) : World :=
  let gone :=
    filter (fun id => late id = true /\ Some id <> own) (armed w) in
  mkWorld (trace w) (armed w ∖ gone) (expired w ∪ gone)
          (next_timer w) (fetches w).

(** ** The wrapper *)

(** Sequencing of effect-free steps that may throw. *)
Definition and_then {A B} (c : Completion A) (k : A -> Completion B)
  : Completion B :=
  match c with
  | Normal a => k a
  | Throw e => Throw e
  end.

(** [await res.m?.()]: [undefined] when the method is missing. *)
Definition call_opt (wrap : list Byte.byte -> JsValue)
  (m : option (Settled (list Byte.byte))) : Completion JsValue :=
  match m with
  | None => Normal JUndefined
  | Some p => and_then (await p) (fun bytes => Normal (wrap bytes))
  end.

(** The body of the inner [try]: decode by declared content type. *)
Definition decode (res : Response) (contentType : string) : Completion JsValue :=
  if includes "application/json" contentType then
    await (res_json res)
  else if includes "text/" contentType then
    and_then (await (res_text res)) (fun s => Normal (JStr s))
  else
    and_then (call_opt JBlob (res_blob res)) (fun b =>
      if truthy b then Normal b
      else and_then (call_opt JBuffer (res_arrayBuffer res)) (fun a =>
             Normal (a ||| JNull))).

(** [res.headers.get('content-type') || ''] *)
Definition contentType (res : Response) : string :=
  match res_content_type res with
  | Some ct => ct
  | None => ""
  end.

(** The inner [try ... catch (parseError)]. *)
Definition parse (res : Response) : Completion JsValue :=
  try_catch (decode res (contentType res))
    (fun parseError =>
       Throw (new_Error ("Failed to parse response: " +:+ err_message parseError))).

(** The message of the error built for a response that is not ok. *)
Definition errorMessage (res : Response) (data : JsValue) : JsValue :=
  opt_get data "message"
  ||| opt_get data "error"
  ||| data
  ||| JStr (res_statusText res)
  ||| JStr ("HTTP " +:+ number_to_string (res_status res)).

(** Everything the [try] block does once [fetch] has resolved and the timer
    is cleared: parse, then either throw the HTTP error or give the data. *)
Definition respond (url : string) (res : Response) : Completion JsValue :=
  and_then (parse res) (fun data =>
    if negb (res_ok res) then
      Throw (mkError "Error" (to_string (errorMessage res data))
                     (Some (res_status res)) (Some (res_statusText res))
                     (Some data) (Some url))
    else Normal data).

(** What a call returns to its caller: the data, or a thrown value, which is
    [None] when it is [undefined]. *)
Inductive Outcome : Type :=
| Returns (data : JsValue)
| Throws (thrown : option Error).

Section ApiFetch.

(** The two constants of the page that the wrapper refers to. *)
Variables apiBase apiKey : string.

(** The transport: how the n-th call of [fetch] settles. *)
Variable net : nat -> FetchOutcome.

(** The clock: [due n id] tells that the time of timer [id] is up when the
    call is suspended with [n] events behind it. *)
Variable due : nat -> nat -> bool.

(** [await fetch(url, init)] *)
Definition fetch (url : string) (init : FetchInit) : Async Response := fun w =>
  let w0 := mkWorld (trace w ++ [EvFetch url init]) (armed w) (expired w)
                    (next_timer w) (S (fetches w)) in
  let w1 := pass_time (due (length (trace w0))) (Some (init_signal init)) w0 in
  match net (fetches w) with
  | Resolves res => (Normal res, w1)
  | TimerFires =>
      (Throw AbortError,
       mkWorld (trace w1 ++ [EvAbort (init_signal init)])
               (armed w1 ∖ {[ init_signal init ]}) (expired w1)
               (next_timer w1) (fetches w1))
  | NetworkFailure msg => (Throw (TypeError msg), w1)
  end.

(** [await new Promise(resolve => setTimeout(resolve, ms))] *)
Definition sleep (ms : Number) : Async unit := fun w =>
  let w0 := log (EvDelay ms) w in
  (Normal tt, pass_time (due (length (trace w0))) None w0).

Section Call.

Variable path : string.
Variable opts : Options.

(** The destructuring of [opts], with its defaults. *)
Definition timeout : Z := default 30000 (opt_timeout opts).
Definition retries : Z := default 0 (opt_retries opts).
Definition retryDelay : Z := default 1000 (opt_retryDelay opts).
Definition includeCredentials : bool := default true (opt_includeCredentials opts).
Definition fetchOptions : FetchOptions := opt_rest opts.

(** [fetchOptions.headers?.['Content-Type'] || 'application/json'] *)
Definition content_type_header : string :=
  match fo_headers fetchOptions with
  | Some h =>
      match h !! "Content-Type" with
      | Some v => if String.eqb v "" then "application/json" else v
      | None => "application/json"
      end
  | None => "application/json"
  end.

(** The header object built before the loop. *)
Definition headers : gmap string string :=
  <[ "Content-Type" := content_type_header ]>
    (<[ "X-API-KEY" := apiKey ]> (default ∅ (fo_headers fetchOptions))).

Definition url : string := apiBase +:+ path.

(** The options of one attempt, with the signal of its own controller. *)
Definition fetch_init (timeoutId : nat) : FetchInit :=
  mkFetchInit (fo_method fetchOptions) (fo_body fetchOptions) headers
              (if includeCredentials then "include" else "omit") timeoutId.

(** The [try] block of one attempt. *)
Definition try_block : Async JsValue :=
  let* timeoutId := setTimeout timeout in
  let* res := fetch url (fetch_init timeoutId) in
  let* _ := clearTimeout timeoutId in
  lift (respond url res).

(** [error.status >= 400 && error.status < 500] *)
Definition client_error (error : Error) : bool :=
  match err_status error with
  | Some s => (400 <=? s) && (s <? 500)
  | None => false
  end.

(** The [for] loop, from [attempt] on, with the [catch] block of each
    iteration: a returned value or a rethrown error ends the call, anything
    else is kept as [lastError] and, unless this was the last iteration,
    followed by a wait.  [fuel] bounds the number of iterations; running
    out of it gives [None].  The counter is an integer of the model; the
    source counts in doubles, which count alike below [2^53]. *)
Fixpoint retry_loop (fuel : nat) (attempt : Z) (lastError : option Error)
  (w : World) : option (Outcome * World) :=
  match fuel with
  | O => None
  | S fuel' =>
      if attempt <=? retries then
        match try_block w with
        | (Normal data, w1) => Some (Returns data, w1)
        | (Throw error, w1) =>
            if String.eqb (err_name error) "AbortError" then
              Some (Throws (Some (new_Error
                      ("Request timeout after " +:+ number_to_string timeout
                       +:+ "ms"))),
                    w1)
            else if client_error error then
              Some (Throws (Some error), w1)
            else
              let w2 := if attempt <? retries
                        then snd (sleep (js_mul retryDelay (attempt + 1)) w1)
                        else w1 in
              retry_loop fuel' (attempt + 1) (Some error) w2
        end
      else Some (Throws lastError, w)
  end.

(** The call itself, on a fresh page.  The loop runs at most [retries + 1]
    times, so this fuel is never used up ([apiFetch_finishes]). *)
Definition apiFetch : option (Outcome * World) :=
  retry_loop (S (Z.to_nat (retries + 1))) 0 None initial_world.

End Call.
End ApiFetch.

(** ** Observations on a run *)

(** The number of network attempts recorded in a world. *)
Fixpoint count_fetches (t : list Event) : nat :=
  match t with
  | [] => 0%nat
  | EvFetch _ _ :: t' => S (count_fetches t')
  | _ :: t' => count_fetches t'
  end.

Definition attempts (w : World) : nat := count_fetches (trace w).

(** What a run looks like to the backend: attempts, and waits between them. *)
Inductive Tick : Type :=
| Attempt
| Wait (ms : Number).

Fixpoint schedule (t : list Event) : list Tick :=
  match t with
  | [] => []
  | EvFetch _ _ :: t' => Attempt :: schedule t'
  | EvDelay ms :: t' => Wait ms :: schedule t'
  | _ :: t' => schedule t'
  end.

(** Linear backoff: [n] attempts starting at index [attempt], and before each
    attempt but the first a wait of [delay] times the number of attempts
    already made, as a product of numbers. *)
Fixpoint backoff (delay attempt : Z) (n : nat) : list Tick :=
  match n with
  | O => []
  | S n' =>
      Attempt ::
      match n' with
      | O => []
      | S _ => Wait (js_mul delay (attempt + 1)) :: backoff delay (attempt + 1) n'
      end
  end.

(** The [fetch] calls of a trace, with their arguments. *)
Fixpoint requests (t : list Event) : list (string * FetchInit) :=
  match t with
  | [] => []
  | EvFetch u init :: t' => (u, init) :: requests t'
  | _ :: t' => requests t'
  end.

Section Runs.

Variables apiBase apiKey : string.
Variable net : nat -> FetchOutcome.
Variable path : string.
Variable opts : Options.

(** The completion of the [try] block, from how its [fetch] settles. *)
Definition try_result (o : FetchOutcome) : Completion JsValue :=
  match o with
  | Resolves res => respond (url apiBase path) res
  | TimerFires => Throw AbortError
  | NetworkFailure msg => Throw (TypeError msg)
  end.

(** The error thrown for an attempt cancelled by its timer. *)
Definition timeout_error : Error :=
  new_Error ("Request timeout after " +:+ number_to_string (timeout opts)
             +:+ "ms").

(** How an attempt ends the call, if it does. *)
Definition settles (c : Completion JsValue) : option Outcome :=
  match c with
  | Normal data => Some (Returns data)
  | Throw error =>
      if String.eqb (err_name error) "AbortError" then
        Some (Throws (Some timeout_error))
      else if client_error error then Some (Throws (Some error))
      else None
  end.

(** The events of one attempt whose timer is [id]. *)
Definition attempt_events (id : nat) (o : FetchOutcome) : list Event :=
  [EvSetTimeout id (timeout opts);
   EvFetch (url apiBase path) (fetch_init apiKey opts id)]
  ++ match o with
     | Resolves _ => [EvClearTimeout id]
     | TimerFires => [EvAbort id]
     | NetworkFailure _ => []
     end.

(** The events of [n] consecutive attempts, the first one with loop index
    [attempt], timer [id] and the [k]-th answer of the transport. *)
Fixpoint run_events (attempt : Z) (id k : nat) (n : nat) : list Event :=
  match n with
  | O => []
  | S n' =>
      attempt_events id (net k)
      ++ match n' with
         | O => []
         | S _ =>
             EvDelay (js_mul (retryDelay opts) (attempt + 1))
             :: run_events (attempt + 1) (S id) (S k) n'
         end
  end.

(** The shape of a finished call: [n] attempts were made, none but the last
    could end the call, and the last one either ended it or was the last the
    loop allows. *)
Definition finished (r : Outcome) (w : World) : Prop :=
  let n := attempts w in
  Z.of_nat n <= Z.max 0 (retries opts + 1)
  /\ trace w = run_events 0 0%nat 0%nat n
  /\ (forall k : nat, (S k < n)%nat -> settles (try_result (net k)) = None)
  /\ match n with
     | O => r = Throws None /\ retries opts < 0
     | S j =>
         let final := try_result (net j) in
         settles final = Some r
         \/ (settles final = None /\ Z.of_nat j = retries opts
             /\ exists e, final = Throw e /\ r = Throws (Some e))
     end.

(** A failure the loop may retry, in the words of the specification: a
    response with a status of 500 or more, or a failure of the network. *)
Definition retryable_failure (o : FetchOutcome) : Prop :=
  match o with
  | Resolves res => 500 <= res_status res
  | TimerFires => False
  | NetworkFailure _ => True
  end.

End Runs.

(** The waits of a trace, in order. *)
Fixpoint delays (t : list Event) : list Number :=
  match t with
  | [] => []
  | EvDelay ms :: t' => ms :: delays t'
  | _ :: t' => delays t'
  end.

(** ** Sample transports and options *)

Definition no_fetch_options : FetchOptions := mkFetchOptions None None None.

(** [{}] *)
Definition default_opts : Options := mkOptions None None None None no_fetch_options.

(** [{ retries: 3, retryDelay: 10 }] *)
Definition retrying_opts : Options :=
  mkOptions None (Some 3) (Some 10) None no_fetch_options.

(** The double quote. *)
Definition dq : string := String (Ascii.ascii_of_nat 34) EmptyString.

(** A JSON printer for values without characters to escape. *)
Fixpoint print_json (v : JsValue) : string :=
  match v with
  | JStr s => dq +:+ s +:+ dq
  | JNum n => number_to_string n
  | JBool true => "true"
  | JBool false => "false"
  | JArr items => "[" +:+ String.concat "," (map print_json items) +:+ "]"
  | JObj fields =>
      "{" +:+ String.concat ","
                (map (fun kv : string * JsValue => let (k, x) := kv in
                                dq +:+ k +:+ dq +:+ ":" +:+ print_json x)
                     fields)
      +:+ "}"
  | _ => "null"
  end.

(** What [json()] rejects with on a text that is not JSON from the
    character [token] at [position] on. *)
Definition unexpected_token (token position : string) : Error :=
  mkError "SyntaxError"
          ("Unexpected token " +:+ token +:+ " in JSON at position " +:+ position)
          None None None None.

Definition syntax_error : Error := unexpected_token "<" "0".

(** The message of a reader whose body was read before. *)
Definition already_read : string :=
  "Failed to execute 'text' on 'Response': body stream already read".

(** The response of a browser to a request with a body [text] in it: every
    reader is there, and [json] is what [json()] makes of the text. *)
Definition response (status : Z) (statusText : string)
  (content_type : option string) (json : Settled JsValue) (text : string)
  : Response :=
  let bytes := String.list_byte_of_string text in
  mkResponse status statusText content_type json (Fulfilled text)
             (Some (Fulfilled bytes)) (Some (Fulfilled bytes)) false
             already_read.

(** The same for a body that is the JSON text of [v]. *)
Definition json_response (status : Z) (statusText : string)
  (content_type : string) (v : JsValue) : Response :=
  response status statusText (Some content_type) (Fulfilled v) (print_json v).

(** A 500 answer with a JSON body. *)
Definition server_error_response : Response :=
  json_response 500 "Internal Server Error" "application/json"
                (JObj [("error", JStr "boom")]).

Definition logs_payload : JsValue := JObj [("logs", JArr [])].

(** A 200 answer with a JSON body. *)
Definition logs_response : Response :=
  json_response 200 "OK" "application/json; charset=utf-8" logs_payload.

(** A transport that plays a script, then loses the connection. *)
Definition scripted (script : list FetchOutcome) (n : nat) : FetchOutcome :=
  nth n script (NetworkFailure "Failed to fetch").

(** Two server errors, then the logs. *)
Definition flaky_transport : nat -> FetchOutcome :=
  scripted [Resolves server_error_response; Resolves server_error_response;
            Resolves logs_response].

(** [{ timeout: 5000, retries: 3, retryDelay: 10 }] *)
Definition impatient_opts : Options :=
  mkOptions (Some 5000) (Some 3) (Some 10) None no_fetch_options.

(** A server error, then an answer that never comes. *)
Definition stalling_transport : nat -> FetchOutcome :=
  scripted [Resolves server_error_response; TimerFires].

Definition empty_body_error : Error :=
  mkError "SyntaxError" "Unexpected end of JSON input" None None None None.

(** A 404 answer that declares JSON and has an empty body. *)
Definition not_found_empty : Response :=
  response 404 "Not Found" (Some "application/json")
           (Rejected empty_body_error) "".

(** A 404 answer with a JSON body. *)
Definition not_found_response : Response :=
  json_response 404 "Not Found" "application/json"
                (JObj [("error", JStr "no such log")]).

(** [{ retries: 1, retryDelay: 10 }] *)
Definition retry_once_opts : Options :=
  mkOptions None (Some 1) (Some 10) None no_fetch_options.

(** A 200 answer that declares JSON and carries an HTML page. *)
Definition garbled_response : Response :=
  response 200 "OK" (Some "application/json") (Rejected syntax_error)
           "<html></html>".

(** A garbled answer, then the logs. *)
Definition garbled_once_transport : nat -> FetchOutcome :=
  scripted [Resolves garbled_response; Resolves logs_response].

(** A 422 answer with the JSON body [{"message":"bad input"}]. *)
Definition bad_input_response : Response :=
  json_response 422 "Unprocessable Entity" "application/json"
                (JObj [("message", JStr "bad input")]).

Definition csv_text : string := "timestamp,service,message,level".

(** The export, served as [text/csv]. *)
Definition csv_response : Response :=
  response 200 "OK" (Some "text/csv") (Rejected (unexpected_token "i" "1")) csv_text.

Definition archive_bytes : list Byte.byte := [Byte.x50; Byte.x4b; Byte.x03; Byte.x04].

(** The same bytes read as text. *)
Definition archive_text : string := String.string_of_list_byte archive_bytes.

(** A binary download from a transport that only has [arrayBuffer]. *)
Definition archive_response : Response :=
  mkResponse 200 "OK" (Some "application/zip") (Rejected (unexpected_token "P" "0"))
             (Fulfilled archive_text) None (Some (Fulfilled archive_bytes)) false
             already_read.

(** [{ headers: { 'Content-Type': 'text/plain', 'X-API-KEY': 'forged',
       'Accept': 'text/csv' } }] *)
Definition custom_header_opts : Options :=
  mkOptions None None None None
    (mkFetchOptions (Some "POST") (Some "hello")
       (Some (<[ "Content-Type" := "text/plain" ]>
                (<[ "X-API-KEY" := "forged" ]>
                   (<[ "Accept" := "text/csv" ]> ∅))))).

(** [{ headers: { 'Content-Type': '' } }] *)
Definition empty_content_type_opts : Options :=
  mkOptions None None None None
    (mkFetchOptions None None (Some (<[ "Content-Type" := "" ]> ∅))).

(** [{ retries: -1 }] *)
Definition negative_retries_opts : Options :=
  mkOptions None (Some (-1)) None None no_fetch_options.

(** A clock on which no timer that was left armed goes off before the call
    ends, and one on which each goes off on the first occasion. *)
Definition slow_clock : nat -> nat -> bool := fun _ _ => false.
Definition fast_clock : nat -> nat -> bool := fun _ _ => true.

(** [{ retries: 2, retryDelay: 10 }] *)
Definition two_retries_opts : Options :=
  mkOptions None (Some 2) (Some 10) None no_fetch_options.

(** [{ timeout: 5, retries: 2, retryDelay: 60000 }] *)
Definition leaky_opts : Options :=
  mkOptions (Some 5) (Some 2) (Some 60000) None no_fetch_options.

(** [{ retries: 3, retryDelay: 9007199254740991 }] *)
Definition huge_delay_opts : Options :=
  mkOptions None (Some 3) (Some 9007199254740991) None no_fetch_options.

(** Three server errors, then the logs. *)
Definition failing_thrice : nat -> FetchOutcome :=
  scripted [Resolves server_error_response; Resolves server_error_response;
            Resolves server_error_response; Resolves logs_response].


Definition linked_data : JsValue := JObj [("name", JStr "billing")].

(** A 200 answer in JSON-LD. *)
Definition linked_data_response : Response :=
  json_response 200 "OK" "application/ld+json" linked_data.

(** A 200 answer in plain text, its content type written in capitals. *)
Definition capital_text_response : Response :=
  response 200 "OK" (Some "TEXT/PLAIN") (Rejected (unexpected_token "p" "0"))
           "pong".

(** [{ headers: { 'content-type': 'text/plain', 'x-api-key': 'forged' } }] *)
Definition lower_case_opts : Options :=
  mkOptions None None None None
    (mkFetchOptions None None
       (Some (<[ "content-type" := "text/plain" ]>
                (<[ "x-api-key" := "forged" ]> ∅)))).

(** ** More of JavaScript, for the page scripts *)

(** [v.k], for a key that is neither [length] nor an index: reading a
    property of [null] or [undefined] throws; only a plain object can carry
    the key. *)
Definition get_prop (v : JsValue) (k : string) : Completion JsValue :=
  match v with
  | JUndefined =>
      Throw (TypeError ("Cannot read properties of undefined (reading '"
                        +:+ k +:+ "')"))
  | JNull =>
      Throw (TypeError ("Cannot read properties of null (reading '"
                        +:+ k +:+ "')"))
  | JObj fields => Normal (assoc k fields)
  | _ => Normal JUndefined
  end.

(** [v.length].  The length of a string is counted in characters of the
    model; the scripts only test it for zero. *)
Definition get_length (v : JsValue) : Completion JsValue :=
  match v with
  | JUndefined =>
      Throw (TypeError "Cannot read properties of undefined (reading 'length')")
  | JNull =>
      Throw (TypeError "Cannot read properties of null (reading 'length')")
  | JArr items => Normal (JNum (Z.of_nat (length items)))
  | JStr s => Normal (JNum (Z.of_nat (String.length s)))
  | JObj fields => Normal (assoc "length" fields)
  | _ => Normal JUndefined
  end.

(** [a === 'text'] *)
Definition is_string (a : JsValue) (text : string) : bool :=
  match a with
  | JStr s => String.eqb s text
  | _ => false
  end.

(** The line feed, for markup. *)
Definition nl : string := String (Ascii.ascii_of_nat 10) EmptyString.

(** What the scripts use of the platform besides the DOM: date and string
    functions, the JSON printer, and the transport, which tells how the
    n-th call of [fetch] of a page settles. *)
Record Platform : Type := mkPlatform {
  toLocaleString : JsValue -> string;
  toLowerCase : string -> string;
  trim : string -> string;
  JSON_stringify : JsValue -> string;
  transport : nat -> Settled Response
}.

(** The element [#apiStatus]. *)
Record StatusElement : Type := mkStatusElement {
  textContent : string;
  className : string
}.

(** The body of [#logsTable]: the markup last assigned to it, and the markup
    of each row appended since. *)
Record TableBody : Type := mkTableBody {
  innerHTML : string;
  children : list string
}.

(** The page: local storage, the elements the scripts look up ([None] when
    the page has no such element; an input is its value), and what the
    scripts did to the outside: calls of [fetch], errors written to the
    console, files offered for download. *)
Record Page : Type := mkPage {
  localStorage : gmap string string;
  apiStatus : option StatusElement;
  logsTableBody : option TableBody;
  serviceInput : option string;
  levelInput : option string;
  serverIdInput : option string;
  traceIdInput : option string;
  messageInput : option string;
  fetched : list (string * FetchOptions);
  console : list (string * Error);
  downloads : list (string * list Byte.byte)
}.

Definition set_localStorage (s : gmap string string) (p : Page) : Page :=
  mkPage s (apiStatus p) (logsTableBody p) (serviceInput p) (levelInput p)
         (serverIdInput p) (traceIdInput p) (messageInput p) (fetched p)
         (console p) (downloads p).

Definition set_apiStatus (e : option StatusElement) (p : Page) : Page :=
  mkPage (localStorage p) e (logsTableBody p) (serviceInput p) (levelInput p)
         (serverIdInput p) (traceIdInput p) (messageInput p) (fetched p)
         (console p) (downloads p).

Definition set_logsTableBody (t : option TableBody) (p : Page) : Page :=
  mkPage (localStorage p) (apiStatus p) t (serviceInput p) (levelInput p)
         (serverIdInput p) (traceIdInput p) (messageInput p) (fetched p)
         (console p) (downloads p).

Definition set_messageInput (v : option string) (p : Page) : Page :=
  mkPage (localStorage p) (apiStatus p) (logsTableBody p) (serviceInput p)
         (levelInput p) (serverIdInput p) (traceIdInput p) v (fetched p)
         (console p) (downloads p).

Definition set_fetched (f : list (string * FetchOptions)) (p : Page) : Page :=
  mkPage (localStorage p) (apiStatus p) (logsTableBody p) (serviceInput p)
         (levelInput p) (serverIdInput p) (traceIdInput p) (messageInput p) f
         (console p) (downloads p).

Definition set_console (c : list (string * Error)) (p : Page) : Page :=
  mkPage (localStorage p) (apiStatus p) (logsTableBody p) (serviceInput p)
         (levelInput p) (serverIdInput p) (traceIdInput p) (messageInput p)
         (fetched p) c (downloads p).

Definition set_downloads (d : list (string * list Byte.byte)) (p : Page) : Page :=
  mkPage (localStorage p) (apiStatus p) (logsTableBody p) (serviceInput p)
         (levelInput p) (serverIdInput p) (traceIdInput p) (messageInput p)
         (fetched p) (console p) d.

(** Asynchronous code of a page. *)
Definition Job (A : Type) : Type := Page -> Completion A * Page.

Definition pure {A} (a : A) : Job A := fun p => (Normal a, p).

Definition raise {A} (e : Error) : Job A := fun p => (Throw e, p).

Definition seq_job {A B} (c : Job A) (k : A -> Job B) : Job B :=
  fun p => match c p with
           | (Normal a, p') => k a p'
           | (Throw e, p') => (Throw e, p')
           end.

Notation "'let!' x ':=' c 'in' k" := (seq_job c (fun x => k))
  (at level 10, x name, c at level 100, k at level 200).

(** A step that does not touch the page. *)
Definition step {A} (c : Completion A) : Job A := fun p => (c, p).

(** [try { body } catch (e) { handler e }] *)
Definition try_job {A} (body : Job A) (handler : Error -> Job A) : Job A :=
  fun p => match body p with
           | (Normal a, p') => (Normal a, p')
           | (Throw e, p') => handler e p'
           end.

(** [console.error(label, err)] *)
Definition console_error (label : string) (err : Error) : Job unit := fun p =>
  (Normal tt, set_console (console p ++ [(label, err)]) p).

(** [await fetch(url, init)] without a signal: the call is recorded and
    settles as the transport says. *)
Definition page_fetch (env : Platform) (url : string) (init : FetchOptions)
  : Job Response := fun p =>
  let p1 := set_fetched (fetched p ++ [(url, init)]) p in
  match transport env (length (fetched p)) with
  | Fulfilled res => (Normal res, p1)
  | Rejected e => (Throw e, p1)
  end.

(** ** The page script of src/app.js *)

Module App.

Definition apiBase : string := "/api".
Definition KEY_STORAGE_NAME : string := "uls_api_key".

Section Script.

Variable env : Platform.

(** Lines 21-28. *)
Definition setStatus (msg : string) (isError isSuccess : bool) : Job unit :=
  fun p =>
    match apiStatus p with
    | None => (Normal tt, p)
    | Some _ =>
        let class := if isError then "error"
                     else if isSuccess then "success" else "info" in
        (Normal tt,
         set_apiStatus (Some (mkStatusElement msg ("status show " +:+ class))) p)
    end.

(** [localStorage.getItem(name)] *)
Definition getItem (name : string) : Job JsValue := fun p =>
  (Normal (match localStorage p !! name with
           | Some s => JStr s
           | None => JNull
           end), p).

(** [localStorage.setItem(name, value)]: the value is stored as a string. *)
Definition setItem (name : string) (value : JsValue) : Job unit := fun p =>
  (Normal tt, set_localStorage (<[ name := to_string value ]> (localStorage p)) p).

(** Lines 33-48.  The result is the value of [key] at the [return]. *)
Definition getApiKey : Job JsValue :=
  let! key := getItem KEY_STORAGE_NAME in
  if negb (truthy key) then
    try_job
      (let! res := page_fetch env (apiBase +:+ "/key/generate")
                              (mkFetchOptions (Some "POST") None None) in
       let! data := step (await (res_json res)) in
       let! status := step (get_prop data "status") in
       let! accepted :=
         (if is_string status "success" then pure true
          else let! api_key := step (get_prop data "api_key") in
               pure (truthy api_key)) in
       if (accepted : bool) then
         let! api_key := step (get_prop data "api_key") in
         let! _ := setItem KEY_STORAGE_NAME api_key in
         pure api_key
       else pure key)
      (fun err =>
         let! _ := console_error "Failed to generate API Key" err in
         pure key)
  else pure key.

(** The text of the error for a response that is not ok (lines 61-67):
    from the JSON body, or when that fails from the body as text, read
    after [json()] was called. *)
Definition error_text (res : Response) : Completion JsValue :=
  try_catch
    (and_then (await (res_json res)) (fun json =>
     and_then (get_prop json "message") (fun message =>
       if truthy message then Normal message
       else and_then (get_prop json "error") (fun error =>
              Normal (error ||| JStr (res_statusText res))))))
    (fun e => and_then (await (text_again res)) (fun text => Normal (JStr text))).

(** What [apiFetch] makes of a response (lines 60-74). *)
Definition answer (res : Response) : Completion JsValue :=
  if negb (res_ok res) then
    and_then (error_text res) (fun text =>
      Throw (new_Error (number_to_string (res_status res) +:+ " "
                        +:+ to_string (text ||| JStr (res_statusText res)))))
  else
    let ct := contentType res in
    if includes "application/json" ct then await (res_json res)
    else and_then (await (res_text res)) (fun text => Normal (JStr text)).

(** The options [apiFetch] passes to [fetch]: those of the caller, with the
    key among the headers when there is one (lines 55-56). *)
Definition with_key (apiKey : JsValue) (opts : FetchOptions) : FetchOptions :=
  let headers := default ∅ (fo_headers opts) in
  mkFetchOptions (fo_method opts) (fo_body opts)
    (Some (if truthy apiKey
           then <[ "X-API-KEY" := to_string apiKey ]> headers
           else headers)).

(** Lines 53-78.  The outer [try ... catch (err) { throw err; }] rethrows
    what it catches and is left out. *)
Definition apiFetch (path : string) (opts : FetchOptions) : Job JsValue :=
  let! apiKey := getApiKey in
  let! res := page_fetch env (apiBase +:+ path) (with_key apiKey opts) in
  step (answer res).

(** Lines 80-83. *)
Definition formatTime (ts : JsValue) : string :=
  if negb (truthy ts) then "-" else toLocaleString env ts.

(** [log.level?.toLowerCase()] *)
Definition level_toLowerCase (level : JsValue) : Completion JsValue :=
  match level with
  | JUndefined | JNull => Normal JUndefined
  | JStr s => Normal (JStr (toLowerCase env s))
  | _ => Throw (TypeError "log.level?.toLowerCase is not a function")
  end.

(** [n] spaces. *)
Fixpoint indent (n : nat) : string :=
  match n with
  | O => EmptyString
  | S n' => " " +:+ indent n'
  end.

(** The markup of one row (lines 98-103). *)
Definition row_markup (log : JsValue) : Completion string :=
  and_then (get_prop log "timestamp") (fun timestamp =>
  and_then (get_prop log "service") (fun service =>
  and_then (get_prop log "message") (fun message =>
  and_then (get_prop log "level") (fun level =>
  and_then (level_toLowerCase level) (fun lower =>
    Normal (nl
      +:+ indent 16 +:+ "<td>" +:+ formatTime timestamp +:+ "</td>" +:+ nl
      +:+ indent 16 +:+ "<td>" +:+ to_string (service ||| JStr "Unknown")
      +:+ "</td>" +:+ nl
      +:+ indent 16 +:+ "<td>" +:+ to_string message +:+ "</td>" +:+ nl
      +:+ indent 16 +:+ "<td class=" +:+ dq +:+ "level "
      +:+ to_string (lower ||| JStr "info") +:+ dq +:+ ">"
      +:+ to_string (level ||| JStr "INFO") +:+ "</td>" +:+ nl
      +:+ indent 12)))))).

(** [logsTableBody.appendChild(row)] *)
Definition appendChild (row : string) (p : Page) : Page :=
  match logsTableBody p with
  | Some body =>
      set_logsTableBody
        (Some (mkTableBody (innerHTML body) (children body ++ [row]))) p
  | None => p
  end.

(** [arr.forEach(log => ...)] on the items of an array. *)
Fixpoint append_rows (items : list JsValue) : Job unit := fun p =>
  match items with
  | [] => (Normal tt, p)
  | log :: rest =>
      match row_markup log with
      | Normal row => append_rows rest (appendChild row p)
      | Throw e => (Throw e, p)
      end
  end.

Definition no_logs_markup : string :=
  "<tr><td colspan=" +:+ dq +:+ "4" +:+ dq +:+ " style=" +:+ dq
  +:+ "text-align:center;" +:+ dq +:+ ">No logs available</td></tr>".

(** Lines 88-106. *)
Definition renderLogs (arr : JsValue) : Job unit := fun p =>
  match logsTableBody p with
  | None => (Normal tt, p)
  | Some _ =>
      let p := set_logsTableBody (Some (mkTableBody "" [])) p in
      let empty :=
        if negb (truthy arr) then Normal true
        else and_then (get_length arr) (fun n => Normal (negb (truthy n))) in
      match empty with
      | Throw e => (Throw e, p)
      | Normal true =>
          (Normal tt, set_logsTableBody (Some (mkTableBody no_logs_markup [])) p)
      | Normal false =>
          match arr with
          | JArr items => append_rows items p
          | _ => (Throw (TypeError "arr.forEach is not a function"), p)
          end
      end
  end.

Definition no_options : FetchOptions := mkFetchOptions None None None.

(** Lines 111-122. *)
Definition refreshLogs : Job unit := fun p =>
  match logsTableBody p with
  | None => (Normal tt, p)
  | Some _ =>
      (let! _ := setStatus "Fetching logs..." false false in
       try_job
         (let! data := apiFetch "/logs" no_options in
          let! logs :=
            (let! logs := step (get_prop data "logs") in
             if truthy logs then pure logs
             else let! results := step (get_prop data "results") in
                  pure (results ||| JArr [])) in
          let! _ := renderLogs logs in
          let! n := step (get_length logs) in
          setStatus ("Fetched " +:+ to_string n +:+ " logs") false true)
         (fun err => setStatus ("Fetch failed: " +:+ err_message err) true false))
        p
  end.

(** [(input ? input.value.trim() : '') || fallback] *)
Definition trimmed_or (input : option string) (fallback : string) : string :=
  let v := match input with
           | Some value => trim env value
           | None => ""
           end in
  if String.eqb v "" then fallback else v.

(** The [payload] of [submitLog], given the trimmed message. *)
Definition payload (p : Page) (message : string) : JsValue :=
  JObj [("service", JStr (trimmed_or (serviceInput p) "web-app"));
        ("level", JStr (match levelInput p with
                        | Some value => if String.eqb value "" then "INFO" else value
                        | None => "INFO"
                        end));
        ("message", JStr message);
        ("server", JStr (trimmed_or (serverIdInput p) "local-client"));
        ("trace_id", JStr (trimmed_or (traceIdInput p) ""))].

(** Lines 127-154.  The call of [refreshLogs] that is not awaited is run in
    place: nothing of [submitLog] follows it. *)
Definition submitLog : Job unit := fun p =>
  match messageInput p with
  | None => setStatus "Please enter a message" true false p
  | Some value =>
      if String.eqb (trim env value) "" then
        setStatus "Please enter a message" true false p
      else
        (let! _ := setStatus "Submitting..." false false in
         try_job
           (let! _ := apiFetch "/logs"
                        (mkFetchOptions (Some "POST")
                           (Some (JSON_stringify env (payload p (trim env value))))
                           (Some (<[ "Content-Type" := "application/json" ]> ∅))) in
            let! _ := setStatus "Log submitted!" false true in
            let! _ := (fun q => (Normal tt, set_messageInput (Some "") q)) in
            refreshLogs)
           (fun err =>
              setStatus ("Submit failed: " +:+ err_message err) true false))
          p
  end.

(** [await res.json().catch(() => ({}))] *)
Definition json_or_empty (res : Response) : JsValue :=
  match res_json res with
  | Fulfilled v => v
  | Rejected _ => JObj []
  end.

(** [await res.blob()] *)
Definition read_blob (res : Response) : Completion (list Byte.byte) :=
  match res_blob res with
  | Some p => await p
  | None => Throw (TypeError "res.blob is not a function")
  end.

(** Lines 171-174: an answer that is not ok is turned into an error. *)
Definition check_ok (res : Response) : Completion unit :=
  if negb (res_ok res) then
    let errorData := json_or_empty res in
    and_then (get_prop errorData "message") (fun message =>
    and_then (if truthy message then Normal message
              else and_then (get_prop errorData "error") (fun error =>
                     Normal (error ||| JStr "Export failed"))) (fun text =>
      Throw (new_Error (to_string text))))
  else Normal tt.

(** The download through a temporary link (lines 177-185), recorded as the
    file name and the bytes of the blob. *)
Definition download (name : string) (blob : list Byte.byte) : Job unit :=
  fun p => (Normal tt, set_downloads (downloads p ++ [(name, blob)]) p).

(** Lines 159-190. *)
Definition exportCSV : Job unit :=
  let! _ := setStatus "Preparing Export..." false false in
  let! apiKey := getApiKey in
  try_job
    (let! res := page_fetch env (apiBase +:+ "/logs/export")
                   (mkFetchOptions (Some "GET") None
                      (Some (<[ "X-API-KEY" := to_string apiKey ]> ∅))) in
     let! _ := step (check_ok res) in
     let! blob := step (read_blob res) in
     let! _ := download "logs.csv" blob in
     setStatus "CSV Exported & Saved to server!" false true)
    (fun err => setStatus ("Export failed: " +:+ err_message err) true false).

End Script.
End App.

(** ** Observations on a page *)

(** The stored key counts only when it is not empty. *)
Definition no_stored_key (p : Page) : Prop :=
  localStorage p !! App.KEY_STORAGE_NAME = None
  \/ localStorage p !! App.KEY_STORAGE_NAME = Some "".

(** The elements of the page and its downloads are the same. *)
Definition same_elements (p p' : Page) : Prop :=
  apiStatus p' = apiStatus p
  /\ logsTableBody p' = logsTableBody p
  /\ serviceInput p' = serviceInput p
  /\ levelInput p' = levelInput p
  /\ serverIdInput p' = serverIdInput p
  /\ traceIdInput p' = traceIdInput p
  /\ messageInput p' = messageInput p
  /\ downloads p' = downloads p.

(** The request that asks the backend for a key. *)
Definition generate_request : string * FetchOptions :=
  ("/api/key/generate", mkFetchOptions (Some "POST") None None).


(** The page once [#apiStatus], if there is one, shows [msg] with the class
    [class]. *)
Definition shown (msg class : string) (p : Page) : Page :=
  match apiStatus p with
  | Some _ =>
      set_apiStatus (Some (mkStatusElement msg ("status show " +:+ class))) p
  | None => p
  end.

(** The request [apiFetch] sends for the caller when the stored key is [k]. *)
Definition keyed_request (k path : string) (opts : FetchOptions)
  : string * FetchOptions :=
  ("/api" +:+ path,
   mkFetchOptions (fo_method opts) (fo_body opts)
     (Some (<[ "X-API-KEY" := k ]> (default ∅ (fo_headers opts))))).

(** What [submitLog] posts: the payload as JSON. *)
Definition log_post (env : Platform) (p : Page) (message : string) : FetchOptions :=
  mkFetchOptions (Some "POST")
    (Some (JSON_stringify env (App.payload env p message)))
    (Some (<[ "Content-Type" := "application/json" ]> ∅)).

(** How the transport settles the next request of a page, as [apiFetch]
    sees it. *)
Definition next_answer (env : Platform) (p : Page) : Completion JsValue :=
  match transport env (length (fetched p)) with
  | Fulfilled res => App.answer res
  | Rejected e => Throw e
  end.

(** The request [exportCSV] sends when the key it got prints as [key]. *)
Definition export_request (key : string) : string * FetchOptions :=
  ("/api/logs/export",
   mkFetchOptions (Some "GET") None (Some (<[ "X-API-KEY" := key ]> ∅))).

(** ** The page script of src/script.js *)

Module Script.

Definition apiBase : string := "http://localhost:5000/api".
Definition apiKey : string := "uls_c6f1942d398cffa112c51c5b10c8f257".

(** What [apiFetch] gives back: a parsed body, or the response itself. *)
Inductive Fetched : Type :=
| Parsed (data : JsValue)
| Raw (res : Response).

Section Script.

Variable env : Platform.

(** Lines 21-26. *)
Definition setStatus (msg type : string) : Job unit := fun p =>
  match apiStatus p with
  | Some _ =>
      (Normal tt,
       set_apiStatus (Some (mkStatusElement msg ("status show " +:+ type))) p)
  | None => (Normal tt, p)
  end.

(** The options [apiFetch] passes to [fetch] (lines 29-30). *)
Definition with_key (options : FetchOptions) : FetchOptions :=
  mkFetchOptions (fo_method options) (fo_body options)
    (Some (<[ "X-API-KEY" := apiKey ]> (default ∅ (fo_headers options)))).

(** The text of the error for a response that is not ok (lines 34-40); the
    body is read as text after [json()] was called. *)
Definition error_text (res : Response) : Completion JsValue :=
  try_catch
    (and_then (await (res_json res)) (fun json =>
     and_then (get_prop json "message") (fun message =>
       Normal (message ||| JStr (res_statusText res)))))
    (fun e => and_then (await (text_again res)) (fun text => Normal (JStr text))).

(** [res.headers.get("content-type")?.includes("json")] *)
Definition declares_json (res : Response) : bool :=
  match res_content_type res with
  | Some ct => includes "json" ct
  | None => false
  end.

(** What [apiFetch] makes of a response (lines 33-45). *)
Definition answer (res : Response) : Completion Fetched :=
  if negb (res_ok res) then
    and_then (error_text res) (fun txt =>
      Throw (new_Error (to_string (txt ||| JStr (res_statusText res)))))
  else if declares_json res then
    and_then (await (res_json res)) (fun data => Normal (Parsed data))
  else Normal (Raw res).

(** Lines 28-46. *)
Definition apiFetch (path : string) (options : FetchOptions) : Job Fetched :=
  let! res := page_fetch env (apiBase +:+ path) (with_key options) in
  step (answer res).

(** [data.logs]: a response object has no such property. *)
Definition logs_of (data : Fetched) : Completion JsValue :=
  match data with
  | Parsed v => get_prop v "logs"
  | Raw _ => Normal JUndefined
  end.

(** The markup of one row (lines 60-65). *)
Definition row_markup (l : JsValue) : Completion string :=
  and_then (get_prop l "timestamp") (fun timestamp =>
  and_then (get_prop l "service") (fun service =>
  and_then (get_prop l "message") (fun message =>
  and_then (get_prop l "level") (fun level =>
    Normal (nl
      +:+ App.indent 8 +:+ "<td>" +:+ toLocaleString env timestamp
      +:+ "</td>" +:+ nl
      +:+ App.indent 8 +:+ "<td>" +:+ to_string (service ||| JStr "-")
      +:+ "</td>" +:+ nl
      +:+ App.indent 8 +:+ "<td>" +:+ to_string (message ||| JStr "-")
      +:+ "</td>" +:+ nl
      +:+ App.indent 8 +:+ "<td>" +:+ to_string (level ||| JStr "INFO")
      +:+ "</td>" +:+ nl
      +:+ App.indent 6))))).

(** [logs.forEach(l => ...)] on the items of an array. *)
Fixpoint append_rows (items : list JsValue) : Job unit := fun p =>
  match items with
  | [] => (Normal tt, p)
  | l :: rest =>
      match row_markup l with
      | Normal row => append_rows rest (App.appendChild row p)
      | Throw e => (Throw e, p)
      end
  end.

Definition no_logs_markup : string :=
  "<tr><td colspan=" +:+ dq +:+ "4" +:+ dq +:+ " style=" +:+ dq
  +:+ "text-align:center;" +:+ dq +:+ ">No logs found</td></tr>".

(** Lines 48-68. *)
Definition renderLogs (logs : JsValue) : Job unit := fun p =>
  match logsTableBody p with
  | None => (Normal tt, p)
  | Some _ =>
      let p := set_logsTableBody (Some (mkTableBody "" [])) p in
      match get_length logs with
      | Throw e => (Throw e, p)
      | Normal n =>
          if negb (truthy n) then
            (Normal tt,
             set_logsTableBody (Some (mkTableBody no_logs_markup [])) p)
          else
            match logs with
            | JArr items => append_rows items p
            | _ => (Throw (TypeError "logs.forEach is not a function"), p)
            end
      end
  end.

(** Lines 70-79. *)
Definition refreshLogs : Job unit :=
  try_job
    (let! _ := setStatus "Loading logs..." "info" in
     let! data := apiFetch "/logs" (mkFetchOptions None None None) in
     let! logs := step (logs_of data) in
     let! _ := renderLogs (logs ||| JArr []) in
     let! logs := step (logs_of data) in
     let! n := step (get_length (logs ||| JArr [])) in
     setStatus ("Loaded " +:+ to_string n +:+ " logs") "success")
    (fun e => setStatus ("Load failed: " +:+ err_message e) "error").

(** [input.value]; the page may lack the element. *)
Definition input_value (input : option string) : Completion string :=
  match input with
  | Some value => Normal value
  | None =>
      Throw (TypeError "Cannot read properties of null (reading 'value')")
  end.

(** The object that [submitLog] posts (lines 92-98). *)
Definition payload (p : Page) : Completion JsValue :=
  and_then (input_value (serviceInput p)) (fun service =>
  and_then (input_value (levelInput p)) (fun level =>
  and_then (input_value (messageInput p)) (fun message =>
  and_then (input_value (serverIdInput p)) (fun server =>
  and_then (input_value (traceIdInput p)) (fun trace_id =>
    Normal (JObj [("service", JStr service ||| JStr "unknown");
                  ("level", JStr level);
                  ("message", JStr message);
                  ("server", JStr server);
                  ("trace_id", JStr trace_id)])))))).

(** The options of the request of [submitLog] (lines 89-99). *)
Definition log_post (body : JsValue) : FetchOptions :=
  mkFetchOptions (Some "POST") (Some (JSON_stringify env body))
                 (Some (<[ "Content-Type" := "application/json" ]> ∅)).

(** Lines 81-105.  The call of [refreshLogs] that is not awaited is run in
    place: nothing of [submitLog] follows it. *)
Definition submitLog : Job unit := fun p =>
  match messageInput p with
  | None => setStatus "Message required" "error" p
  | Some value =>
      if String.eqb (trim env value) "" then
        setStatus "Message required" "error" p
      else
        try_job
          (let! body := step (payload p) in
           let! _ := apiFetch "/logs" (log_post body) in
           let! _ := setStatus "Log submitted" "success" in
           let! _ := (fun q => (Normal tt, set_messageInput (Some "") q)) in
           refreshLogs)
          (fun e => setStatus ("Submit failed: " +:+ err_message e) "error")
          p
  end.

(** Lines 107-127. *)
Definition exportCSV : Job unit :=
  try_job
    (let! _ := setStatus "Exporting..." "info" in
     let! res := page_fetch env (apiBase +:+ "/logs/export")
                   (mkFetchOptions None None
                      (Some (<[ "X-API-KEY" := apiKey ]> ∅))) in
     let! _ := (if negb (res_ok res) then raise (new_Error "Export failed")
                else pure tt) in
     let! blob := step (App.read_blob res) in
     let! _ := App.download "logs.csv" blob in
     setStatus "Export successful" "success")
    (fun e => setStatus ("Export failed: " +:+ err_message e) "error").

End Script.
End Script.

(** ** Sample platform, pages and answers *)

Definition lower_ascii (c : Ascii.ascii) : Ascii.ascii :=
  let n := Ascii.nat_of_ascii c in
  if ((65 <=? n) && (n <=? 90))%nat then Ascii.ascii_of_nat (n + 32) else c.

Fixpoint lower (s : string) : string :=
  match s with
  | EmptyString => EmptyString
  | String c rest => String (lower_ascii c) (lower rest)
  end.

Fixpoint drop_spaces (s : string) : string :=
  match s with
  | EmptyString => EmptyString
  | String c rest => if Ascii.is_space c then drop_spaces rest else s
  end.

Definition strip (s : string) : string :=
  String.rev (drop_spaces (String.rev (drop_spaces s))).

(** A platform that prints a date as its timestamp, folds and trims ASCII,
    and whose transport plays a script, then loses the connection. *)
Definition browser (answers : list (Settled Response)) : Platform :=
  mkPlatform to_string lower strip print_json
    (fun n => nth n answers (Rejected (TypeError "Failed to fetch"))).

(** A page with every element, a message typed in, and no key yet. *)
Definition new_page : Page :=
  mkPage ∅ (Some (mkStatusElement "" "status"))
         (Some (mkTableBody "" ["<td>old row</td>"]))
         (Some "billing") (Some "ERROR") (Some "") (Some "")
         (Some " disk full ") [] [] [].

(** The same page with a key in local storage. *)
Definition known_page : Page :=
  set_localStorage (<[ "uls_api_key" := "uls_k1" ]> ∅) new_page.

(** The same again, with only blanks typed in. *)
Definition blank_message_page : Page := set_messageInput (Some "   ") known_page.

Definition key_fields : list (string * JsValue) :=
  [("status", JStr "success"); ("api_key", JStr "uls_k1")].

Definition key_response : Response :=
  json_response 200 "OK" "application/json" (JObj key_fields).

Definition keyless_response : Response :=
  json_response 200 "OK" "application/json" (JObj [("status", JStr "success")]).

Definition disk_full_log : JsValue :=
  JObj [("timestamp", JNum 1700000000000); ("service", JStr "billing");
        ("message", JStr "<b>disk full</b>"); ("level", JStr "ERROR")].

Definition started_log : JsValue := JObj [("message", JStr "started")].

Definition two_logs_response : Response :=
  json_response 200 "OK" "application/json"
                (JObj [("logs", JArr [disk_full_log; started_log])]).

(** A 502 page in HTML. *)
Definition bad_gateway_response : Response :=
  response 502 "Bad Gateway" (Some "text/html") (Rejected syntax_error)
           "<html></html>".

(** A 304 answer: it has no body. *)
Definition not_modified_response : Response :=
  mkResponse 304 "Not Modified" None (Rejected empty_body_error) (Fulfilled "")
             (Some (Fulfilled [])) (Some (Fulfilled [])) true already_read.

(** The export, served as a compressed file. *)
Definition csv_blob_response : Response :=
  mkResponse 200 "OK" (Some "application/zip")
             (Rejected (unexpected_token "P" "0")) (Fulfilled archive_text)
             (Some (Fulfilled archive_bytes)) (Some (Fulfilled archive_bytes))
             false already_read.

(** A 200 page in HTML. *)
Definition html_response : Response :=
  response 200 "OK" (Some "text/html") (Rejected syntax_error) "<html></html>".

(** A page that lacks the service input. *)
Definition no_service_page : Page :=
  mkPage ∅ (Some (mkStatusElement "" "status")) (Some (mkTableBody "" []))
         None (Some "ERROR") (Some "") (Some "") (Some " disk full ")
         [] [] [].

(** * Properties *)

Section Facts.
Context (apiBase apiKey : string) (net : nat -> FetchOutcome)
  (due : nat -> nat -> bool) (path : string) (opts : Options).

Local Abbreviation try_block := (try_block apiBase apiKey net due path opts).
Local Abbreviation retry_loop := (retry_loop apiBase apiKey net due path opts).
Local Abbreviation try_result := (try_result apiBase path).
Local Abbreviation settles := (settles opts).
Local Abbreviation run_events := (run_events apiBase apiKey net path opts).
Local Abbreviation attempt_events := (attempt_events apiBase apiKey path opts).
Local Abbreviation apiFetch := (apiFetch apiBase apiKey net due path opts).
Local Abbreviation finished := (finished apiBase apiKey net path opts).

Lemma try_block_run (w : World) :
  exists w1,
    try_block w = (try_result (net (fetches w)), w1)
    /\ trace w1 = trace w ++ attempt_events (next_timer w) (net (fetches w))
    /\ next_timer w1 = S (next_timer w)
    /\ fetches w1 = S (fetches w).
Proof.
  unfold try_block, bind, setTimeout, fetch, clearTimeout, lift,
    attempt_events, try_result, pass_time; cbn.
  destruct (net (fetches w)) as [res| |msg]; cbn;
    eexists; (split; [reflexivity|]); cbn;
    rewrite <- ?app_assoc; cbn; auto.
Qed.

Lemma retry_loop_run (fuel : nat) :
  forall (a : Z) (le : option Error) (w : World) r w',
    retry_loop fuel a le w = Some (r, w') ->
    exists n : nat,
      fetches w' = (fetches w + n)%nat
      /\ Z.of_nat n <= Z.max 0 (retries opts + 1 - a)
      /\ trace w' = trace w ++ run_events a (next_timer w) (fetches w) n
      /\ (forall k : nat, (fetches w <= k)%nat -> (S k < fetches w')%nat ->
            settles (try_result (net k)) = None)
      /\ match n with
         | O => r = Throws le /\ retries opts < a
         | S j =>
             let final := try_result (net (fetches w + j)%nat) in
             settles final = Some r
             \/ (settles final = None /\ a + Z.of_nat j = retries opts
                 /\ exists e, final = Throw e /\ r = Throws (Some e))
         end.
Proof.
  induction fuel as [|fuel IH]; intros a le w r w' Hrun; [discriminate|].
  cbn [retry_loop] in Hrun.
  destruct (Z.leb_spec a (retries opts)) as [Hle|Hgt].
  2:{ injection Hrun as <- <-. exists 0%nat. cbn.
      rewrite Nat.add_0_r, app_nil_r. repeat split; try lia. }
  destruct (try_block_run w) as (w1 & Htry & Htr & Hid & Hfe).
  rewrite Htry in Hrun.
  destruct (try_result (net (fetches w))) as [data|error] eqn:Hres.
  - injection Hrun as <- <-. exists 1%nat. cbn.
    rewrite Hfe, Htr, Nat.add_0_r, Hres. cbn. rewrite app_nil_r.
    repeat split; try lia. now left.
  - destruct (String.eqb (err_name error) "AbortError") eqn:Hab.
    { injection Hrun as <- <-. exists 1%nat. cbn.
      rewrite Hfe, Htr, Nat.add_0_r, Hres. cbn. rewrite Hab, app_nil_r.
      repeat split; try lia. now left. }
    destruct (client_error error) eqn:Hcl.
    { injection Hrun as <- <-. exists 1%nat. cbn.
      rewrite Hfe, Htr, Nat.add_0_r, Hres. cbn. rewrite Hab, Hcl, app_nil_r.
      repeat split; try lia. now left. }
    apply IH in Hrun as (n & Hn & Hbound & Htrace & Hmid & Hlast).
    assert (Hnone : settles (try_result (net (fetches w))) = None).
    { rewrite Hres. cbn. now rewrite Hab, Hcl. }
    exists (S n).
    assert (Hf2 : fetches (if a <? retries opts
                then (sleep due (js_mul (retryDelay opts) (a + 1)) w1).2 else w1)
                  = S (fetches w)).
    { destruct (a <? retries opts); cbn; auto. }
    assert (Hi2 : next_timer (if a <? retries opts
                then (sleep due (js_mul (retryDelay opts) (a + 1)) w1).2 else w1)
                  = S (next_timer w)).
    { destruct (a <? retries opts); cbn; auto. }
    rewrite Hf2 in *. rewrite Hi2 in *.
    split; [lia|]. split; [lia|].
    split.
    { rewrite Htrace. cbn [run_events].
      destruct n as [|n].
      - cbn. destruct Hlast as [_ Hlt].
        destruct (Z.ltb_spec a (retries opts)); [lia|].
        now rewrite !app_nil_r.
      - destruct (Z.ltb_spec a (retries opts)); [|lia].
        unfold sleep, pass_time. cbn [snd log trace].
        rewrite Htr, <- !app_assoc. reflexivity. }
    split.
    { intros k Hk1 Hk2. destruct (decide (k = fetches w)) as [->|Hne]; [exact Hnone|].
      apply Hmid; lia. }
    destruct n as [|j].
    + destruct Hlast as [-> Hlt]. rewrite Nat.add_0_r. right.
      split; [exact Hnone|]. split; [lia|]. exists error. now rewrite Hres.
    + cbn zeta in *. replace (fetches w + S j)%nat with (S (fetches w) + j)%nat by lia.
      destruct Hlast as [Hl|(Hl1 & Hl2 & Hl3)]; [now left|right].
      split; [exact Hl1|]. split; [lia|exact Hl3].
Qed.

Lemma retry_loop_total (fuel : nat) :
  forall (a : Z) (le : option Error) (w : World),
    (Z.to_nat (retries opts + 1 - a) < fuel)%nat ->
    exists r w', retry_loop fuel a le w = Some (r, w').
Proof.
  induction fuel as [|fuel IH]; intros a le w Hfuel; [lia|].
  cbn [retry_loop].
  destruct (Z.leb_spec a (retries opts)) as [Hle|Hgt]; [|eauto].
  destruct (try_block w) as [[data|error] w1]; [eauto|].
  destruct (String.eqb _ _); [eauto|].
  destruct (client_error error); [eauto|].
  apply IH. lia.
Qed.

Lemma count_fetches_app (t1 t2 : list Event) :
  count_fetches (t1 ++ t2) = (count_fetches t1 + count_fetches t2)%nat.
Proof.
  induction t1 as [|ev t1 IH]; [reflexivity|].
  destruct ev; cbn; rewrite IH; reflexivity.
Qed.

Lemma schedule_app (t1 t2 : list Event) :
  schedule (t1 ++ t2) = schedule t1 ++ schedule t2.
Proof.
  induction t1 as [|ev t1 IH]; [reflexivity|].
  destruct ev; cbn; rewrite IH; reflexivity.
Qed.

Lemma delays_app (t1 t2 : list Event) :
  delays (t1 ++ t2) = delays t1 ++ delays t2.
Proof.
  induction t1 as [|ev t1 IH]; [reflexivity|].
  destruct ev; cbn; rewrite IH; reflexivity.
Qed.

Lemma requests_app (t1 t2 : list Event) :
  requests (t1 ++ t2) = requests t1 ++ requests t2.
Proof.
  induction t1 as [|ev t1 IH]; [reflexivity|].
  destruct ev; cbn; rewrite IH; reflexivity.
Qed.

Lemma run_events_step (a : Z) (id k n : nat) :
  run_events a id k (S (S n))
  = attempt_events id (net k)
    ++ EvDelay (js_mul (retryDelay opts) (a + 1))
       :: run_events (a + 1) (S id) (S k) (S n).
Proof. reflexivity. Qed.

Lemma count_fetches_run (n : nat) :
  forall a id k, count_fetches (run_events a id k n) = n.
Proof.
  induction n as [|n IH]; intros a id k; [reflexivity|].
  cbn [run_events]. rewrite count_fetches_app.
  destruct n as [|n].
  - unfold attempt_events. destruct (net k); reflexivity.
  - cbn [count_fetches]. rewrite IH.
    unfold attempt_events. destruct (net k); reflexivity.
Qed.

Lemma schedule_run (n : nat) :
  forall a id k,
    schedule (run_events a id k n) = backoff (retryDelay opts) a n.
Proof.
  induction n as [|n IH]; intros a id k; [reflexivity|].
  cbn [run_events backoff]. rewrite schedule_app.
  replace (schedule (attempt_events id (net k))) with [Attempt]
    by (unfold attempt_events; destruct (net k); reflexivity).
  destruct n as [|n]; [reflexivity|].
  cbn [schedule app]. now rewrite IH.
Qed.

Lemma delays_run (n : nat) :
  forall a id k,
    delays (run_events a id k (S n))
    = map (fun i : nat => js_mul (retryDelay opts) (a + Z.of_nat i)) (seq 1 n).
Proof.
  induction n as [|n IH]; intros a id k.
  - cbn. rewrite app_nil_r. unfold attempt_events. destruct (net k); reflexivity.
  - rewrite run_events_step, delays_app.
    replace (delays (attempt_events id (net k))) with (@nil Number)
      by (unfold attempt_events; destruct (net k); reflexivity).
    cbn [app delays]. rewrite IH. cbn [seq map].
    rewrite <- (seq_shift n 1), map_map.
    f_equal. apply map_ext. intros i. f_equal. lia.
Qed.

Lemma requests_run (n : nat) :
  forall a id k,
    Forall (fun q : string * FetchInit =>
              q.1 = url apiBase path
              /\ init_headers q.2 = headers apiKey opts)
           (requests (run_events a id k n)).
Proof.
  induction n as [|n IH]; intros a id k; [constructor|].
  cbn [run_events]. rewrite requests_app. apply Forall_app. split.
  - unfold attempt_events. destruct (net k); cbn; repeat constructor.
  - destruct n as [|n]; [constructor|]. cbn [requests]. apply IH.
Qed.

Lemma apiFetch_finishes : exists r w, apiFetch = Some (r, w) /\ finished r w.
Proof.
  unfold apiFetch.
  destruct (retry_loop_total (S (Z.to_nat (retries opts + 1))) 0 None initial_world)
    as (r & w & Hrun); [lia|].
  exists r, w. split; [exact Hrun|].
  apply retry_loop_run in Hrun as (n & Hn & Hbound & Htrace & Hmid & Hlast).
  cbn in Hn, Htrace, Hmid, Hlast.
  assert (Hatt : attempts w = n).
  { unfold attempts. rewrite Htrace. apply count_fetches_run. }
  unfold finished. rewrite Hatt. cbn zeta.
  split; [now rewrite Z.sub_0_r in Hbound|].
  split; [exact Htrace|].
  split; [intros k Hk; apply Hmid; lia|].
  destruct n as [|j]; [exact Hlast|].
  cbn zeta in Hlast. rewrite Z.add_0_l in Hlast. exact Hlast.
Qed.

Lemma settling_attempt_is_last r w (k : nat) (x : Outcome) :
  finished r w -> (k < attempts w)%nat ->
  settles (try_result (net k)) = Some x ->
  attempts w = S k /\ r = x.
Proof.
  intros (_ & _ & Hmid & Hlast) Hk Hx.
  destruct (attempts w) as [|j] eqn:Hn; [lia|].
  destruct (decide (k = j)) as [->|Hne].
  - split; [reflexivity|]. cbn zeta in Hlast.
    destruct Hlast as [Hl|(Hl & _)]; congruence.
  - rewrite Hmid in Hx by lia. discriminate.
Qed.

Lemma retried_attempt_is_followed r w (k : nat) :
  finished r w -> (k < attempts w)%nat ->
  settles (try_result (net k)) = None ->
  Z.of_nat k <= retries opts
  /\ (Z.of_nat k < retries opts -> (S k < attempts w)%nat)
  /\ (Z.of_nat k = retries opts ->
      attempts w = S k
      /\ exists e, try_result (net k) = Throw e /\ r = Throws (Some e)).
Proof.
  intros (Hbound & _ & Hmid & Hlast) Hk Hx.
  destruct (attempts w) as [|j] eqn:Hn; [lia|].
  split; [lia|].
  destruct (decide (k = j)) as [->|Hne].
  - cbn zeta in Hlast. destruct Hlast as [Hl|(_ & Hj & Hl)]; [congruence|].
    split; [lia|]. intros _. split; [reflexivity|exact Hl].
  - split; [lia|]. intros Heq. lia.
Qed.


Lemma run_inv (x : option (Outcome * World)) (r : Outcome) (w : World) :
  x = Some (r, w) -> r = from_option fst r x /\ w = from_option snd w x.
Proof. intros ->. split; reflexivity. Qed.

(** *** How each kind of attempt is classified *)

Lemma respond_ok (res : Response) (data : JsValue) :
  res_ok res = true -> parse res = Normal data ->
  respond (url apiBase path) res = Normal data.
Proof. intros Hok Hp. unfold respond. rewrite Hp. cbn. now rewrite Hok. Qed.

Lemma respond_not_ok (res : Response) (data : JsValue) :
  res_ok res = false -> parse res = Normal data ->
  respond (url apiBase path) res
  = Throw (mkError "Error" (to_string (errorMessage res data))
                   (Some (res_status res)) (Some (res_statusText res))
                   (Some data) (Some (url apiBase path))).
Proof. intros Hok Hp. unfold respond. rewrite Hp. cbn. now rewrite Hok. Qed.

Lemma respond_parse_failure (res : Response) (parseError : Error) :
  decode res (contentType res) = Throw parseError ->
  respond (url apiBase path) res
  = Throw (new_Error ("Failed to parse response: " +:+ err_message parseError)).
Proof. intros Hd. unfold respond, parse. now rewrite Hd. Qed.

Lemma parse_cases (res : Response) :
  (exists data, parse res = Normal data)
  \/ (exists parseError,
        decode res (contentType res) = Throw parseError
        /\ parse res
           = Throw (new_Error ("Failed to parse response: "
                               +:+ err_message parseError))).
Proof.
  unfold parse. destruct (decode res (contentType res)) as [data|e]; cbn; eauto.
Qed.

Lemma settles_timer : settles (try_result TimerFires) = Some (Throws (Some (timeout_error opts))).
Proof. reflexivity. Qed.

Lemma settles_network_failure (msg : string) :
  settles (try_result (NetworkFailure msg)) = None.
Proof. reflexivity. Qed.

Lemma settles_parse_failure (res : Response) (parseError : Error) :
  decode res (contentType res) = Throw parseError ->
  settles (try_result (Resolves res)) = None.
Proof. intros Hd. cbn. now rewrite (respond_parse_failure _ _ Hd). Qed.

Lemma settles_server_error (res : Response) :
  500 <= res_status res -> settles (try_result (Resolves res)) = None.
Proof.
  intros Hs. destruct (parse_cases res) as [[data Hp]|(pe & Hd & _)].
  - cbn. rewrite (respond_not_ok res data); [|unfold res_ok; lia|exact Hp].
    cbn. unfold client_error; cbn.
    destruct (Z.ltb_spec (res_status res) 500); [lia|]. now rewrite andb_false_r.
  - now apply settles_parse_failure with pe.
Qed.

Lemma settles_client_error (res : Response) (data : JsValue) :
  400 <= res_status res < 500 -> parse res = Normal data ->
  exists e, try_result (Resolves res) = Throw e
            /\ settles (Throw e) = Some (Throws (Some e))
            /\ err_status e = Some (res_status res).
Proof.
  intros Hs Hp. eexists. unfold try_result.
  split; [apply respond_not_ok; [unfold res_ok; lia|exact Hp]|].
  split; [|reflexivity]. cbn. unfold client_error; cbn.
  destruct (Z.leb_spec 400 (res_status res)); [|lia].
  destruct (Z.ltb_spec (res_status res) 500); [|lia]. reflexivity.
Qed.

Lemma settles_retryable (o : FetchOutcome) :
  retryable_failure o -> settles (try_result o) = None.
Proof.
  destruct o as [res| |msg]; cbn [retryable_failure]; intros H.
  - now apply settles_server_error.
  - contradiction.
  - apply settles_network_failure.
Qed.

(** *** Numbers *)

Lemma double_exact (x : Z) : Z.abs x < 2 ^ 53 -> double x = Finite x.
Proof.
  intros Hx. unfold double. cbn zeta.
  now destruct (Z.ltb_spec (Z.abs x) (2 ^ 53)); [|lia].
Qed.

Lemma number_to_string_digits (n : Z) :
  Z.abs n < 2 ^ 53 -> number_to_string n = pretty n.
Proof.
  intros Hn. unfold number_to_string, print_natural.
  destruct (Z.ltb_spec n 0) as [Hneg|Hpos].
  - destruct (Z.ltb_spec (- n) (2 ^ 53)); [|lia].
    destruct n as [|p|p]; [lia|lia|reflexivity].
  - now destruct (Z.ltb_spec n (2 ^ 53)); [|lia].
Qed.

(** Rounding at work: down, to the even significand of two doubles as near,
    up, and out of range. *)
Lemma double_samples :
  js_mul 9007199254740991 3 = Finite 27021597764222972
  /\ double (2 ^ 53 + 1) = Finite (2 ^ 53)
  /\ double (2 ^ 53 + 3) = Finite (2 ^ 53 + 4)
  /\ double (- (2 ^ 54 + 6)) = Finite (- (2 ^ 54 + 8))
  /\ double (2 ^ 1024 - 2 ^ 970 - 1) = Finite (2 ^ 1024 - 2 ^ 971)
  /\ double (2 ^ 1024 - 2 ^ 970) = Infinity false
  /\ js_mul (- 10 ^ 200) (10 ^ 200) = Infinity true.
Proof. repeat split; vm_compute; reflexivity. Qed.

(** Numbers in print: digits as long as they tell the double, zeros after
    them below [1e21], an exponent from there on. *)
Lemma number_to_string_samples :
  number_to_string 30000 = "30000"
  /\ number_to_string (-5) = "-5"
  /\ number_to_string (2 ^ 53) = "9007199254740992"
  /\ number_to_string (2 ^ 64) = "18446744073709552000"
  /\ number_to_string (10 ^ 21) = "1e+21"
  /\ number_to_string (2 ^ 70) = "1.1805916207174113e+21"
  /\ number_to_string (- 2 ^ 100) = "-1.2676506002282294e+30".
Proof. repeat split; vm_compute; reflexivity. Qed.

(** *** The retry schedule *)

(** C1. Attempts are indexed from 0 to [retries], which is 0 unless the
    caller gives it: a call makes at most [retries + 1] of them, exactly one
    when [retries = 0] whatever happens, and the wait before attempt [i + 1]
    is [retryDelay * (i + 1)], where [retryDelay] is 1000 unless the caller
    gives it.  When the transport answers [N] times with status 500 and
    then with a success, and [N <= retries], the call returns the payload of
    the success after exactly [N + 1] attempts, the waits between them being
    [retryDelay * 1, ..., retryDelay * N].  The products are those of
    numbers; below [2^53] they are the products of the integers. *)
Theorem apiFetch_attempts_and_backoff :
  let limit := default 0 (opt_retries opts) in
  let delay := default 1000 (opt_retryDelay opts) in
  exists r w,
    apiFetch = Some (r, w)
    /\ Z.of_nat (attempts w) <= Z.max 0 (limit + 1)
    /\ (limit = 0 -> attempts w = 1%nat)
    /\ schedule (trace w) = backoff delay 0 (attempts w)
    /\ (forall (N : nat) (res : Response) (payload : JsValue),
          Z.of_nat N <= limit ->
          (forall k : nat, (k < N)%nat ->
             exists r500, net k = Resolves r500 /\ res_status r500 = 500) ->
          net N = Resolves res ->
          res_ok res = true ->
          parse res = Normal payload ->
          r = Returns payload
          /\ attempts w = S N
          /\ delays (trace w)
             = map (fun i : nat => js_mul delay (Z.of_nat i)) (seq 1 N)
          /\ (Z.abs (delay * Z.of_nat N) < 2 ^ 53 ->
              delays (trace w)
              = map (fun i : nat => Finite (delay * Z.of_nat i)) (seq 1 N))).
Proof.
  intros limit delay.
  change limit with (retries opts). change delay with (retryDelay opts).
  clear limit delay.
  destruct apiFetch_finishes as (r & w & Hrun & Hfin).
  exists r, w. split; [exact Hrun|].
  pose proof Hfin as (Hbound & Htrace & Hmid & Hlast).
  split; [exact Hbound|].
  split.
  { intros H0. destruct (attempts w) as [|[|j]]; [lia|reflexivity|lia]. }
  split.
  { rewrite Htrace at 1. apply schedule_run. }
  intros N res payload HN H500 Hres Hok Hparse.
  assert (Hfail : forall k : nat, (k < N)%nat -> settles (try_result (net k)) = None).
  { intros k Hk. destruct (H500 k Hk) as (r500 & -> & Hs).
    apply settles_server_error. lia. }
  assert (Hwin : settles (try_result (net N)) = Some (Returns payload)).
  { rewrite Hres. cbn. now rewrite (respond_ok res payload). }
  assert (Hatt : (N < attempts w)%nat).
  { destruct (attempts w) as [|j] eqn:Hn; [lia|].
    destruct (Nat.lt_ge_cases j N) as [Hlt|Hge]; [|lia].
    cbn zeta in Hlast. rewrite (Hfail j Hlt) in Hlast.
    destruct Hlast as [Hl|(_ & Hj & _)]; [discriminate|lia]. }
  destruct (settling_attempt_is_last r w N _ Hfin Hatt Hwin) as [Hn ->].
  split; [reflexivity|]. split; [exact Hn|].
  assert (Hwaits : delays (trace w)
                   = map (fun i : nat => js_mul (retryDelay opts) (Z.of_nat i))
                         (seq 1 N)).
  { rewrite Htrace, Hn, delays_run. apply map_ext. intros i. f_equal. }
  split; [exact Hwaits|].
  intros Hsafe. rewrite Hwaits. apply map_ext_in. intros i Hi.
  apply in_seq in Hi. apply double_exact. nia.
Qed.

Lemma prefix_append (s t : string) : String.prefix s (s +:+ t) = true.
Proof.
  induction s as [|c s IH]; [now destruct t|].
  change (String c s +:+ t) with (String c (s +:+ t)).
  cbn [String.prefix].
  destruct (Ascii.ascii_dec c c); [exact IH|contradiction].
Qed.

Lemma includes_prefix (sub s : string) :
  String.prefix sub s = true -> includes sub s = true.
Proof. intros H. destruct s; cbn [includes]; now rewrite H. Qed.

Lemma includes_infix (before s after : string) :
  includes s (before +:+ s +:+ after) = true.
Proof.
  induction before as [|c before IH].
  - change ("" +:+ s +:+ after) with (s +:+ after).
    apply includes_prefix, prefix_append.
  - change (String c before +:+ s +:+ after)
      with (String c (before +:+ s +:+ after)).
    cbn [includes]. rewrite IH. now destruct (String.prefix _ _).
Qed.

Lemma run_events_end (n : nat) :
  forall a id k,
    exists before,
      run_events a id k (S n)
      = before ++ attempt_events (id + n) (net (k + n)%nat).
Proof.
  induction n as [|n IH]; intros a id k.
  - exists []. cbn. now rewrite app_nil_r, !Nat.add_0_r.
  - destruct (IH (a + 1) (S id) (S k)) as (before & Heq).
    rewrite run_events_step, Heq.
    exists (attempt_events id (net k)
            ++ EvDelay (js_mul (retryDelay opts) (a + 1)) :: before).
    rewrite <- app_assoc. cbn [app].
    now replace (S id + n)%nat with (id + S n)%nat by lia;
      replace (S k + n)%nat with (k + S n)%nat by lia.
Qed.

(** *** Timeouts *)

(** C2. An attempt cancelled by its timer is the last one of the call, even
    when retries remain: the call ends there, without a wait, by throwing an
    error whose message names the configured timeout in milliseconds, the
    [timeout] of the caller or else 30000, printed the way a number is: in
    decimal digits below [2^53]. *)
Theorem timeout_is_never_retried :
  let configured := default 30000 (opt_timeout opts) in
  exists r w,
    apiFetch = Some (r, w)
    /\ forall k : nat,
         (k < attempts w)%nat -> net k = TimerFires ->
         attempts w = S k
         /\ last (trace w) = Some (EvAbort k)
         /\ exists e,
              r = Throws (Some e)
              /\ err_message e
                 = "Request timeout after " +:+ number_to_string configured
                   +:+ "ms"
              /\ includes (number_to_string configured) (err_message e) = true
              /\ (Z.abs configured < 2 ^ 53 ->
                  err_message e
                  = "Request timeout after " +:+ pretty configured +:+ "ms").
Proof.
  intros configured. change configured with (timeout opts). clear configured.
  destruct apiFetch_finishes as (r & w & Hrun & Hfin).
  exists r, w. split; [exact Hrun|].
  intros k Hk Hnet.
  assert (Hs : settles (try_result (net k))
               = Some (Throws (Some (timeout_error opts))))
    by (rewrite Hnet; apply settles_timer).
  destruct (settling_attempt_is_last r w k _ Hfin Hk Hs) as [Hn ->].
  split; [exact Hn|]. split.
  - destruct Hfin as (_ & Htrace & _). rewrite Htrace, Hn.
    destruct (run_events_end k 0 0%nat 0%nat) as (before & ->).
    cbn [Nat.add]. rewrite Hnet. unfold attempt_events.
    rewrite !app_assoc. apply last_snoc.
  - exists (timeout_error opts). split; [reflexivity|]. split; [reflexivity|].
    split; [apply includes_infix|].
    intros Hsmall. cbn. now rewrite number_to_string_digits.
Qed.

(** *** Client errors *)

(** The path on which the body decodes: when an attempt receives a response
    with a status in [400,500) whose body decodes, that attempt is the last
    one of the call whatever [retries] is, and the error built for it is
    thrown to the caller unchanged, carrying the status of the response. *)
Lemma client_error_is_never_retried :
  exists r w,
    apiFetch = Some (r, w)
    /\ forall (k : nat) (res : Response) (data : JsValue),
         (k < attempts w)%nat -> net k = Resolves res ->
         400 <= res_status res < 500 -> parse res = Normal data ->
         attempts w = S k
         /\ exists e,
              respond (url apiBase path) res = Throw e
              /\ r = Throws (Some e)
              /\ err_status e = Some (res_status res).
Proof.
  destruct apiFetch_finishes as (r & w & Hrun & Hfin).
  exists r, w. split; [exact Hrun|].
  intros k res data Hk Hnet Hs Hp.
  destruct (settles_client_error res data Hs Hp) as (e & Hthrow & Hsettle & Hst).
  rewrite <- Hthrow, <- Hnet in Hsettle.
  destruct (settling_attempt_is_last r w k _ Hfin Hk Hsettle) as [Hn ->].
  split; [exact Hn|]. exists e. auto.
Qed.

(** *** Parse failures *)

(** C4, as amended.  When the body of a received response fails to decode,
    the attempt fails with an error whose message is "Failed to parse
    response: " followed by the message of the original error.  That
    failure is handled like a failure of the network: while the attempt
    index is below [retries] another attempt follows, and on the last
    attempt the wrapping error is thrown to the caller. *)
Theorem parse_failure_is_wrapped_and_retryable :
  exists r w,
    apiFetch = Some (r, w)
    /\ forall (k : nat) (res : Response) (parseError : Error),
         (k < attempts w)%nat -> net k = Resolves res ->
         decode res (contentType res) = Throw parseError ->
         let wrapped :=
           new_Error ("Failed to parse response: " +:+ err_message parseError) in
         respond (url apiBase path) res = Throw wrapped
         /\ Z.of_nat k <= retries opts
         /\ (Z.of_nat k < retries opts -> (S k < attempts w)%nat)
         /\ (Z.of_nat k = retries opts ->
             attempts w = S k /\ r = Throws (Some wrapped)).
Proof.
  destruct apiFetch_finishes as (r & w & Hrun & Hfin).
  exists r, w. split; [exact Hrun|].
  intros k res parseError Hk Hnet Hd wrapped.
  pose proof (respond_parse_failure res parseError Hd) as Hthrow.
  split; [exact Hthrow|].
  assert (Hs : settles (try_result (net k)) = None)
    by (rewrite Hnet; now apply settles_parse_failure with parseError).
  destruct (retried_attempt_is_followed r w k Hfin Hk Hs) as (Hle & Hlt & Heq).
  split; [exact Hle|]. split; [exact Hlt|].
  intros Hkr. destruct (Heq Hkr) as (Hn & e & He & ->).
  split; [exact Hn|].
  rewrite Hnet in He. cbn in He. subst wrapped. congruence.
Qed.

(** *** Exhaustion *)

(** C5. When every one of the [retries + 1] attempts fails with a
    retryable failure (a status of 500 or more, or a failure of the
    network), the call throws, and what it throws is the error of the last
    attempt. *)
Theorem last_error_is_raised :
  0 <= retries opts ->
  (forall k : nat, Z.of_nat k <= retries opts -> retryable_failure (net k)) ->
  exists e w,
    apiFetch = Some (Throws (Some e), w)
    /\ attempts w = Z.to_nat (retries opts + 1)
    /\ match net (Z.to_nat (retries opts)) with
       | Resolves res => respond (url apiBase path) res = Throw e
       | TimerFires => False
       | NetworkFailure msg => e = TypeError msg
       end.
Proof.
  intros Hr Hfail.
  destruct apiFetch_finishes as (r & w & Hrun & Hfin).
  pose proof Hfin as (Hbound & _ & _ & Hlast).
  destruct (attempts w) as [|j] eqn:Hn; [lia|].
  assert (Hs : settles (try_result (net j)) = None)
    by (apply settles_retryable, Hfail; lia).
  assert (Hj : (j < attempts w)%nat) by lia.
  destruct (retried_attempt_is_followed r w j Hfin Hj Hs) as (_ & Hlt & Heq).
  assert (Hjr : Z.of_nat j = retries opts) by lia.
  destruct (Heq Hjr) as (_ & e & He & ->).
  exists e, w. split; [exact Hrun|]. split; [lia|].
  replace (Z.to_nat (retries opts)) with j by lia.
  pose proof (Hfail j ltac:(lia)) as Hret.
  destruct (net j) as [res| |msg]; cbn in He, Hret; [exact He|contradiction|].
  congruence.
Qed.

Lemma js_or_l (a b : JsValue) : truthy a = true -> a ||| b = a.
Proof. unfold js_or. now intros ->. Qed.

Lemma js_or_r (a b : JsValue) : truthy a = false -> a ||| b = b.
Proof. unfold js_or. now intros ->. Qed.

Lemma first_attempt_is_made r w :
  finished r w -> 0 <= retries opts -> (0 < attempts w)%nat.
Proof.
  intros (_ & _ & _ & Hlast) Hr.
  destruct (attempts w); [destruct Hlast; lia|lia].
Qed.

(** *** The error of a response that is not ok *)

(** The path on which the body decodes: for a response that is not ok the
    attempt throws an error that carries the status, the status text, the
    parsed body and the resolved URL, and whose message is the first truthy
    value among the [message] field of the body, its [error] field, the body
    itself and the status text, or else "HTTP <status>".  In particular a
    422 answer with the JSON body [{"message":"bad input"}] surfaces as the
    message "bad input". *)
Lemma http_error_message_priority :
  (forall (w0 : World) (res : Response) (data : JsValue),
      net (fetches w0) = Resolves res ->
      res_ok res = false -> parse res = Normal data ->
      exists e,
        (try_block w0).1 = Throw e
        /\ err_status e = Some (res_status res)
        /\ err_statusText e = Some (res_statusText res)
        /\ err_data e = Some data
        /\ err_url e = Some (apiBase +:+ path)
        /\ let m := opt_get data "message" in
           let er := opt_get data "error" in
           (truthy m = true -> err_message e = to_string m)
           /\ (truthy m = false -> truthy er = true ->
               err_message e = to_string er)
           /\ (truthy m = false -> truthy er = false -> truthy data = true ->
               err_message e = to_string data)
           /\ (truthy m = false -> truthy er = false -> truthy data = false ->
               res_statusText res <> "" ->
               err_message e = res_statusText res)
           /\ (truthy m = false -> truthy er = false -> truthy data = false ->
               res_statusText res = "" ->
               err_message e = "HTTP " +:+ number_to_string (res_status res)))
  /\ (forall res : Response,
        0 <= retries opts -> net 0%nat = Resolves res ->
        res_status res = 422 ->
        includes "application/json" (contentType res) = true ->
        res_json res = Fulfilled (JObj [("message", JStr "bad input")]) ->
        exists e w,
          apiFetch = Some (Throws (Some e), w)
          /\ err_message e = "bad input"
          /\ err_status e = Some 422).
Proof.
  split.
  - intros w0 res data Hnet Hok Hp.
    destruct (try_block_run w0) as (w1 & -> & _).
    rewrite Hnet. cbn [fst]. unfold try_result.
    rewrite (respond_not_ok res data Hok Hp).
    eexists. split; [reflexivity|]. cbn.
    repeat (split; [reflexivity|]).
    unfold errorMessage. cbn zeta.
    repeat split.
    + intros Hm. now rewrite !(js_or_l _ _ Hm).
    + intros Hm He. rewrite (js_or_r _ _ Hm). now rewrite !(js_or_l _ _ He).
    + intros Hm He Hd. rewrite (js_or_r _ _ Hm), (js_or_r _ _ He).
      now rewrite !(js_or_l _ _ Hd).
    + intros Hm He Hd Hst.
      rewrite (js_or_r _ _ Hm), (js_or_r _ _ He), (js_or_r _ _ Hd).
      rewrite js_or_l; [reflexivity|]. cbn.
      now destruct (String.eqb_spec (res_statusText res) "").
    + intros Hm He Hd Hst.
      rewrite (js_or_r _ _ Hm), (js_or_r _ _ He), (js_or_r _ _ Hd).
      rewrite js_or_r; [reflexivity|]. now rewrite Hst.
  - intros res Hr Hnet Hst Hct Hjson.
    destruct apiFetch_finishes as (r & w & Hrun & Hfin).
    assert (Hp : parse res = Normal (JObj [("message", JStr "bad input")])).
    { unfold parse, decode. now rewrite Hct, Hjson. }
    destruct (settles_client_error res _ ltac:(lia) Hp)
      as (e & Hthrow & Hsettle & Hstatus).
    pose proof Hthrow as Hmsg. unfold try_result in Hmsg.
    rewrite (respond_not_ok res _ ltac:(unfold res_ok; lia) Hp) in Hmsg.
    rewrite <- Hthrow, <- Hnet in Hsettle.
    destruct (settling_attempt_is_last r w 0%nat _ Hfin
                (first_attempt_is_made r w Hfin Hr) Hsettle) as [_ ->].
    exists e, w. split; [exact Hrun|].
    split; [|congruence].
    injection Hmsg as <-. reflexivity.
Qed.

(** *** Successful responses *)

Lemma parsed_success_is_returned r w (k : nat) (res : Response) (data : JsValue) :
  finished r w -> (k < attempts w)%nat -> net k = Resolves res ->
  res_ok res = true -> parse res = Normal data ->
  r = Returns data /\ attempts w = S k.
Proof.
  intros Hfin Hk Hnet Hok Hp.
  assert (Hs : settles (try_result (net k)) = Some (Returns data)).
  { rewrite Hnet. cbn. now rewrite (respond_ok res data Hok Hp). }
  destruct (settling_attempt_is_last r w k _ Hfin Hk Hs) as [Hn ->]. auto.
Qed.

(** C7, as amended.  The body of a successful response is parsed by its
    declared content type: a content type that contains [application/json],
    in these letters, gives the value read by [json()]; otherwise one that
    contains [text/], such as [text/csv], gives the text of the body as it
    was delivered; any other gives the blob, or without [blob] the array
    buffer, or without either [null].  When the reader fulfils, the parsed
    data is what the call returns, and the attempt that received the
    response is the last one. *)
Theorem success_is_parsed_and_returned :
  exists r w,
    apiFetch = Some (r, w)
    /\ forall (k : nat) (res : Response),
         (k < attempts w)%nat -> net k = Resolves res -> res_ok res = true ->
         let ct := contentType res in
         (includes "application/json" ct = true ->
          forall v, res_json res = Fulfilled v ->
                    r = Returns v /\ attempts w = S k)
         /\ (includes "application/json" ct = false ->
             includes "text/" ct = true ->
             forall s, res_text res = Fulfilled s ->
                       r = Returns (JStr s) /\ attempts w = S k)
         /\ (res_content_type res = Some "text/csv" ->
             forall s, res_text res = Fulfilled s ->
                       r = Returns (JStr s) /\ attempts w = S k)
         /\ (includes "application/json" ct = false ->
             includes "text/" ct = false ->
             (forall b, res_blob res = Some (Fulfilled b) ->
                        r = Returns (JBlob b) /\ attempts w = S k)
             /\ (res_blob res = None ->
                 forall b, res_arrayBuffer res = Some (Fulfilled b) ->
                           r = Returns (JBuffer b) /\ attempts w = S k)
             /\ (res_blob res = None -> res_arrayBuffer res = None ->
                 r = Returns JNull /\ attempts w = S k)).
Proof.
  destruct apiFetch_finishes as (r & w & Hrun & Hfin).
  exists r, w. split; [exact Hrun|].
  intros k res Hk Hnet Hok ct.
  pose proof (parsed_success_is_returned r w k res) as Hret.
  split; [|split; [|split]].
  - intros Hj v Hv. apply Hret; auto.
    unfold parse, decode. fold ct. now rewrite Hj, Hv.
  - intros Hj Ht s Hs. apply Hret; auto.
    unfold parse, decode. fold ct. now rewrite Hj, Ht, Hs.
  - intros Hct s Hs. apply Hret; auto.
    unfold parse, decode, contentType. now rewrite Hct, Hs.
  - intros Hj Ht. split; [|split].
    + intros b Hb. apply Hret; auto.
      unfold parse, decode. fold ct. now rewrite Hj, Ht, Hb.
    + intros Hnb b Hb. apply Hret; auto.
      unfold parse, decode. fold ct. now rewrite Hj, Ht, Hnb, Hb.
    + intros Hnb Hna. apply Hret; auto.
      unfold parse, decode. fold ct. now rewrite Hj, Ht, Hnb, Hna.
Qed.

(** *** Request headers *)

Lemma headers_lookup :
  let caller := default ∅ (fo_headers (opt_rest opts)) in
  headers apiKey opts !! "X-API-KEY" = Some apiKey
  /\ (forall v, caller !! "Content-Type" = Some v -> v <> "" ->
                headers apiKey opts !! "Content-Type" = Some v)
  /\ (caller !! "Content-Type" = None \/ caller !! "Content-Type" = Some "" ->
      headers apiKey opts !! "Content-Type" = Some "application/json")
  /\ (forall key, key <> "X-API-KEY" -> key <> "Content-Type" ->
                  headers apiKey opts !! key = caller !! key).
Proof.
  unfold headers, content_type_header, fetchOptions. cbn zeta.
  split; [|split; [|split]].
  - rewrite lookup_insert_ne by discriminate. apply lookup_insert_eq.
  - intros v Hv Hne. rewrite lookup_insert_eq.
    destruct (fo_headers (opt_rest opts)) as [h|]; cbn in Hv |- *.
    + rewrite Hv. now destruct (String.eqb_spec v "").
    + now rewrite lookup_empty in Hv.
  - intros Hv. rewrite lookup_insert_eq.
    destruct (fo_headers (opt_rest opts)) as [h|]; cbn in Hv |- *; [|reflexivity].
    destruct Hv as [-> | ->]; reflexivity.
  - intros key Hk Hc. now rewrite !lookup_insert_ne by congruence.
Qed.

(** C8, as amended.  Every attempt is sent to the resolved URL with the same
    headers: those of the caller, except that [X-API-KEY] is always the API
    key, whatever the caller gave under that name, and that [Content-Type]
    is the value the caller gave under that name when it is not empty, and
    [application/json] when the caller gave none or an empty one.  Names are
    told apart by their letters, capitals included: what the caller gave
    under any other name is sent as it is. *)
Theorem headers_of_every_attempt :
  exists r w,
    apiFetch = Some (r, w)
    /\ length (requests (trace w)) = attempts w
    /\ Forall
         (fun q : string * FetchInit =>
            let sent := init_headers q.2 in
            let caller := default ∅ (fo_headers (opt_rest opts)) in
            q.1 = apiBase +:+ path
            /\ sent !! "X-API-KEY" = Some apiKey
            /\ (forall v, caller !! "Content-Type" = Some v -> v <> "" ->
                          sent !! "Content-Type" = Some v)
            /\ (caller !! "Content-Type" = None
                \/ caller !! "Content-Type" = Some "" ->
                sent !! "Content-Type" = Some "application/json")
            /\ (forall key, key <> "X-API-KEY" -> key <> "Content-Type" ->
                            sent !! key = caller !! key))
         (requests (trace w)).
Proof.
  destruct apiFetch_finishes as (r & w & Hrun & Hfin).
  exists r, w. split; [exact Hrun|].
  destruct Hfin as (_ & Htrace & _).
  split.
  { unfold attempts. generalize (trace w). intros t.
    induction t as [|[] t IH]; cbn; auto. }
  rewrite Htrace.
  eapply Forall_impl; [apply requests_run|].
  intros [u init] [Hu Hh]. cbn in Hu, Hh |- *. rewrite Hh.
  split; [exact Hu|]. apply headers_lookup.
Qed.

(** *** Timers *)

(** On the path where a response arrives, the timer of the attempt is
    cleared right after [fetch] and is no longer armed. *)
Lemma response_clears_timer (w0 : World) (res : Response) :
  net (fetches w0) = Resolves res ->
  exists before,
    trace (try_block w0).2
    = before ++ [EvFetch (url apiBase path)
                         (fetch_init apiKey opts (next_timer w0));
                 EvClearTimeout (next_timer w0)]
    /\ next_timer w0 ∉ armed (try_block w0).2.
Proof.
  intros Hnet.
  unfold try_block, bind, setTimeout, fetch, clearTimeout, lift; cbn.
  rewrite Hnet; cbn.
  exists (trace w0 ++ [EvSetTimeout (next_timer w0) (timeout opts)]).
  split; [rewrite <- !app_assoc; reflexivity|].
  apply not_elem_of_difference. right. now apply elem_of_singleton.
Qed.

(** *** Negative retries *)

(** C10. With a negative [retries] the body of the loop never runs: no
    network attempt is made, nothing else happens, and the call throws
    [undefined], the initial value of [lastError]. *)
Theorem negative_retries_makes_no_attempt :
  retries opts < 0 ->
  apiFetch = Some (Throws None, initial_world)
  /\ attempts initial_world = 0%nat.
Proof.
  intros Hneg. split; [|reflexivity].
  unfold apiFetch. cbn [retry_loop].
  destruct (Z.leb_spec 0 (retries opts)); [lia|reflexivity].
Qed.

End Facts.

(** C9, on the failing path.  When [fetch] rejects because the network
    failed, nothing clears the timer of the attempt: with the default
    options the call ends after that single attempt, throwing the error of
    the network, and leaves timer 0 armed. *)
Theorem network_failure_leaves_timer_armed (apiBase apiKey path msg : string)
  (due : nat -> nat -> bool) :
  exists w,
    apiFetch apiBase apiKey (fun _ => NetworkFailure msg) due path default_opts
    = Some (Throws (Some (TypeError msg)), w)
    /\ trace w = [EvSetTimeout 0 30000;
                  EvFetch (apiBase +:+ path) (fetch_init apiKey default_opts 0)]
    /\ armed w = {[ 0%nat ]}.
Proof.
  eexists. split; [reflexivity|]. cbn.
  split; [reflexivity|].
  apply set_eq. intros id.
  rewrite elem_of_difference, elem_of_filter, elem_of_union, elem_of_singleton.
  split; [intros [[->|Hin] _]; [reflexivity|now apply elem_of_empty in Hin]|].
  intros ->. split; [now left|]. intros [[_ Hown] _]. now apply Hown.
Qed.

(** C1 at [{ retries: 3, retryDelay: 10 }] over two server errors followed
    by the logs, at [{}] over a dead network, and at a delay of [2^53 - 1],
    whose third multiple is not a double. *)
Lemma apiFetch_attempts_and_backoff_witness :
  (exists w,
     apiFetch "/api" "key" flaky_transport slow_clock "/logs" retrying_opts
     = Some (Returns logs_payload, w)
     /\ attempts w = 3%nat /\ delays (trace w) = [Finite 10; Finite 20])
  /\ (exists r w,
        apiFetch "/api" "key" (scripted []) slow_clock "/logs" default_opts
        = Some (r, w)
        /\ attempts w = 1%nat)
  /\ (exists w,
        apiFetch "/api" "key" failing_thrice slow_clock "/logs" huge_delay_opts
        = Some (Returns logs_payload, w)
        /\ delays (trace w)
           = [Finite 9007199254740991; Finite 18014398509481982;
              Finite 27021597764222972]).
Proof.
  split; [|split].
  - destruct (apiFetch_attempts_and_backoff "/api" "key" flaky_transport
                slow_clock "/logs" retrying_opts)
      as (r & w & Hrun & _ & _ & _ & Hscenario).
    destruct (Hscenario 2%nat logs_response logs_payload)
      as (Hr & Hn & _ & Hd).
    + vm_compute. discriminate.
    + intros [|[|k]] Hk; [| |lia];
        (exists server_error_response; split; reflexivity).
    + reflexivity.
    + reflexivity.
    + reflexivity.
    + exists w. rewrite <- Hr. split; [exact Hrun|]. split; [exact Hn|].
      apply Hd. reflexivity.
  - destruct (apiFetch_attempts_and_backoff "/api" "key" (scripted [])
                slow_clock "/logs" default_opts) as (r & w & Hrun & _ & Hone & _).
    exists r, w. split; [exact Hrun|]. apply Hone. reflexivity.
  - destruct (apiFetch_attempts_and_backoff "/api" "key" failing_thrice
                slow_clock "/logs" huge_delay_opts)
      as (r & w & Hrun & _ & _ & _ & Hscenario).
    destruct (Hscenario 3%nat logs_response logs_payload)
      as (Hr & _ & Hd & _).
    + vm_compute. discriminate.
    + intros [|[|[|k]]] Hk; [| | |lia];
        (exists server_error_response; split; reflexivity).
    + reflexivity.
    + reflexivity.
    + reflexivity.
    + exists w. rewrite <- Hr. split; [exact Hrun|]. exact Hd.
Defined.

(** C2 at [{ timeout: 5000, retries: 3 }]: the second attempt times out. *)
Lemma timeout_is_never_retried_witness :
  exists w,
    apiFetch "/api" "key" stalling_transport slow_clock "/logs" impatient_opts
    = Some (Throws (Some (new_Error "Request timeout after 5000ms")), w)
    /\ attempts w = 2%nat.
Proof.
  destruct (timeout_is_never_retried "/api" "key" stalling_transport
              slow_clock "/logs" impatient_opts) as (r & w & Hrun & Hlast).
  assert (Hn : attempts w = 2%nat).
  { destruct (run_inv _ _ _ Hrun) as [_ ->]. reflexivity. }
  destruct (Hlast 1%nat) as (_ & _ & e & -> & _ & _ & Hmsg).
  - rewrite Hn. lia.
  - reflexivity.
  - exists w. split; [|exact Hn]. rewrite Hrun. do 3 f_equal.
    destruct (run_inv _ _ _ Hrun) as [He _].
    injection He as ->. reflexivity.
Defined.

(** C3.  The claim holds on the path on which the body of the response
    decodes and fails on the other: a 404 answer that declares JSON and has
    an empty body is retried, and the error that reaches the caller has no
    status, whereas a 404 answer with a JSON body ends the call at once
    with an error of status 404. *)
Theorem client_error_with_bad_body_is_retried :
  (exists e w,
     apiFetch "/api" "key" (fun _ => Resolves not_found_empty) slow_clock
              "/logs" retry_once_opts
     = Some (Throws (Some e), w)
     /\ attempts w = 2%nat /\ err_status e = None)
  /\ (exists e w,
        apiFetch "/api" "key" (fun _ => Resolves not_found_response) slow_clock
                 "/logs" retry_once_opts
        = Some (Throws (Some e), w)
        /\ attempts w = 1%nat /\ err_status e = Some 404).
Proof.
  split; eexists _, _; (split; [vm_compute; reflexivity|]); split; reflexivity.
Qed.

(** C4 at a backend whose answers never decode, with one retry allowed:
    the first failure is retried, the second is thrown. *)
Lemma parse_failure_is_wrapped_and_retryable_witness :
  exists w,
    apiFetch "/api" "key" (fun _ => Resolves garbled_response) slow_clock
             "/logs" retry_once_opts
    = Some (Throws (Some (new_Error
              "Failed to parse response: Unexpected token < in JSON at position 0")),
            w)
    /\ attempts w = 2%nat.
Proof.
  destruct (parse_failure_is_wrapped_and_retryable "/api" "key"
              (fun _ => Resolves garbled_response) slow_clock "/logs"
              retry_once_opts)
    as (r & w & Hrun & Hparse).
  assert (Hn : attempts w = 2%nat).
  { destruct (run_inv _ _ _ Hrun) as [_ ->]. reflexivity. }
  destruct (Hparse 0%nat garbled_response syntax_error)
    as (_ & _ & Hretried & _); [rewrite Hn; lia|reflexivity|reflexivity|].
  destruct (Hparse 1%nat garbled_response syntax_error)
    as (_ & _ & _ & Hthrown); [rewrite Hn; lia|reflexivity|reflexivity|].
  destruct Hthrown as [_ ->]; [reflexivity|].
  exists w. split; [exact Hrun|exact Hn].
Defined.

(** C4 as stated fails: with one retry allowed, a parse failure on the first
    attempt is followed by a second attempt, whose payload is returned. *)
Lemma parse_failure_is_not_terminal :
  exists w,
    apiFetch "/api" "key" garbled_once_transport slow_clock "/logs"
             retry_once_opts
    = Some (Returns logs_payload, w)
    /\ attempts w = 2%nat
    /\ decode garbled_response (contentType garbled_response)
       = Throw syntax_error.
Proof.
  eexists. split; [vm_compute; reflexivity|].
  split; reflexivity.
Qed.

(** C5 at a backend that always answers 500, with three retries allowed. *)
Lemma last_error_is_raised_witness :
  exists e w,
    apiFetch "/api" "key" (fun _ => Resolves server_error_response) slow_clock
             "/logs" retrying_opts
    = Some (Throws (Some e), w)
    /\ attempts w = 4%nat
    /\ respond (url "/api" "/logs") server_error_response = Throw e.
Proof.
  destruct (last_error_is_raised "/api" "key"
              (fun _ => Resolves server_error_response) slow_clock "/logs"
              retrying_opts)
    as (e & w & Hrun & Hn & Hlast).
  - cbn. lia.
  - intros k _. cbn. lia.
  - exists e, w. split; [exact Hrun|]. split; [exact Hn|exact Hlast].
Defined.


(** C7 at a [text/csv] export, at a JSON answer that follows two server
    errors, and at a binary download read through [arrayBuffer]. *)
Lemma success_is_parsed_and_returned_witness :
  (exists w,
     apiFetch "/api" "key" (fun _ => Resolves csv_response) slow_clock
              "/logs/export" retrying_opts
     = Some (Returns (JStr csv_text), w)
     /\ attempts w = 1%nat)
  /\ (exists w,
        apiFetch "/api" "key" flaky_transport slow_clock "/logs" retrying_opts
        = Some (Returns logs_payload, w)
        /\ attempts w = 3%nat)
  /\ (exists w,
        apiFetch "/api" "key" (fun _ => Resolves archive_response) slow_clock
                 "/archive" default_opts
        = Some (Returns (JBuffer archive_bytes), w)
        /\ attempts w = 1%nat).
Proof.
  split; [|split].
  - destruct (success_is_parsed_and_returned "/api" "key"
                (fun _ => Resolves csv_response) slow_clock "/logs/export"
                retrying_opts)
      as (r & w & Hrun & Hparsed).
    destruct (Hparsed 0%nat csv_response) as (_ & _ & Hcsv & _).
    + destruct (run_inv _ _ _ Hrun) as [_ ->]. vm_compute. lia.
    + reflexivity.
    + reflexivity.
    + destruct (Hcsv eq_refl csv_text eq_refl) as [-> Hn]. eauto.
  - destruct (success_is_parsed_and_returned "/api" "key" flaky_transport
                slow_clock "/logs" retrying_opts)
      as (r & w & Hrun & Hparsed).
    destruct (Hparsed 2%nat logs_response) as (Hjson & _).
    + destruct (run_inv _ _ _ Hrun) as [_ ->]. vm_compute. lia.
    + reflexivity.
    + reflexivity.
    + destruct (Hjson eq_refl logs_payload eq_refl) as [-> Hn]. eauto.
  - destruct (success_is_parsed_and_returned "/api" "key"
                (fun _ => Resolves archive_response) slow_clock "/archive"
                default_opts)
      as (r & w & Hrun & Hparsed).
    destruct (Hparsed 0%nat archive_response) as (_ & _ & _ & Hbinary).
    + destruct (run_inv _ _ _ Hrun) as [_ ->]. vm_compute. lia.
    + reflexivity.
    + reflexivity.
    + destruct (Hbinary eq_refl eq_refl) as (_ & Hbuffer & _).
      destruct (Hbuffer eq_refl archive_bytes eq_refl) as [-> Hn]. eauto.
Defined.

(** C7 as stated fails, in three ways.  A successful response whose body
    does not decode is not returned: with one retry allowed a second attempt
    follows, and the parse error of that one is thrown.  A JSON content type
    that does not contain [application/json], here [application/ld+json],
    gives the blob and not the value of the body.  And a text content type
    in capitals gives the blob and not the text. *)
Lemma ok_response_is_not_always_parsed_and_returned :
  (res_ok garbled_response = true
   /\ exists e w,
        apiFetch "/api" "key" (fun _ => Resolves garbled_response) slow_clock
                 "/logs" retry_once_opts
        = Some (Throws (Some e), w)
        /\ attempts w = 2%nat)
  /\ (res_ok linked_data_response = true
      /\ res_json linked_data_response = Fulfilled linked_data
      /\ exists bytes w,
           apiFetch "/api" "key" (fun _ => Resolves linked_data_response)
                    slow_clock "/logs" default_opts
           = Some (Returns (JBlob bytes), w))
  /\ (res_ok capital_text_response = true
      /\ res_text capital_text_response = Fulfilled "pong"
      /\ exists bytes w,
           apiFetch "/api" "key" (fun _ => Resolves capital_text_response)
                    slow_clock "/ping" default_opts
           = Some (Returns (JBlob bytes), w)).
Proof.
  split; [|split].
  - split; [reflexivity|]. eexists _, _. split; [vm_compute; reflexivity|].
    reflexivity.
  - split; [reflexivity|]. split; [reflexivity|].
    eexists _, _. vm_compute. reflexivity.
  - split; [reflexivity|]. split; [reflexivity|].
    eexists _, _. vm_compute. reflexivity.
Qed.

(** C8 at a caller that gives its own content type, a forged key and an
    [Accept] header. *)
Lemma headers_of_every_attempt_witness :
  exists r w init,
    apiFetch "/api" "key" (fun _ => Resolves logs_response) slow_clock "/logs"
             custom_header_opts
    = Some (r, w)
    /\ requests (trace w) = [("/api/logs", init)]
    /\ init_headers init !! "X-API-KEY" = Some "key"
    /\ init_headers init !! "Content-Type" = Some "text/plain"
    /\ init_headers init !! "Accept" = Some "text/csv".
Proof.
  destruct (headers_of_every_attempt "/api" "key"
              (fun _ => Resolves logs_response) slow_clock "/logs"
              custom_header_opts)
    as (r & w & Hrun & _ & Hall).
  exists r, w, (fetch_init "key" custom_header_opts 0).
  assert (Hreq : requests (trace w)
                 = [("/api/logs", fetch_init "key" custom_header_opts 0)]).
  { destruct (run_inv _ _ _ Hrun) as [_ ->]. reflexivity. }
  rewrite Hreq in Hall. apply Forall_inv in Hall.
  destruct Hall as (_ & Hkey & Hgiven & _ & Hother).
  split; [exact Hrun|]. split; [exact Hreq|]. split; [exact Hkey|].
  split.
  - apply Hgiven; [reflexivity|discriminate].
  - rewrite Hother by discriminate. reflexivity.
Defined.

(** C8 as stated fails, in three ways.  A caller that supplies a
    [Content-Type] header with an empty value gets the default one instead.
    A caller that supplies its content type under the name [content-type]
    gets the default one added beside it.  And a caller's [x-api-key] is not
    overridden: it is sent beside the [X-API-KEY] that is injected. *)
Lemma caller_headers_are_matched_by_exact_name :
  (exists r w init,
     apiFetch "/api" "key" (fun _ => Resolves logs_response) slow_clock "/logs"
              empty_content_type_opts
     = Some (r, w)
     /\ requests (trace w) = [("/api/logs", init)]
     /\ default ∅ (fo_headers (opt_rest empty_content_type_opts))
        !! "Content-Type" = Some ""
     /\ init_headers init !! "Content-Type" = Some "application/json")
  /\ (exists r w init,
        apiFetch "/api" "key" (fun _ => Resolves logs_response) slow_clock
                 "/logs" lower_case_opts
        = Some (r, w)
        /\ requests (trace w) = [("/api/logs", init)]
        /\ default ∅ (fo_headers (opt_rest lower_case_opts))
           !! "content-type" = Some "text/plain"
        /\ init_headers init !! "content-type" = Some "text/plain"
        /\ init_headers init !! "Content-Type" = Some "application/json"
        /\ init_headers init !! "x-api-key" = Some "forged"
        /\ init_headers init !! "X-API-KEY" = Some "key").
Proof.
  split.
  - eexists _, _, _. split; [vm_compute; reflexivity|].
    split; [reflexivity|]. split; reflexivity.
  - eexists _, _, _. split; [vm_compute; reflexivity|].
    split; [reflexivity|]. repeat split; reflexivity.
Qed.

(** C10 at [{ retries: -1 }]. *)
Lemma negative_retries_makes_no_attempt_witness :
  apiFetch "/api" "key" flaky_transport slow_clock "/logs" negative_retries_opts
  = Some (Throws None, initial_world).
Proof.
  apply (negative_retries_makes_no_attempt "/api" "key" flaky_transport
           slow_clock "/logs" negative_retries_opts).
  cbn. lia.
Defined.

(** * The page script of src/app.js *)

(** ** [getApiKey] *)

Section KeyFacts.

Context (env : Platform).

Lemma getApiKey_stored (p : Page) (k : string) :
  localStorage p !! App.KEY_STORAGE_NAME = Some k -> k <> "" ->
  App.getApiKey env p = (Normal (JStr k), p).
Proof.
  intros Hk Hne. unfold App.getApiKey, seq_job, App.getItem. cbn.
  rewrite Hk. cbn. destruct (String.eqb_spec k ""); [contradiction|reflexivity].
Qed.

Lemma getApiKey_generate (p : Page) :
  no_stored_key p ->
  exists key,
    (key = JNull \/ key = JStr "")
    /\ App.getApiKey env p
       = try_job
           (let! res := page_fetch env (App.apiBase +:+ "/key/generate")
                                   (mkFetchOptions (Some "POST") None None) in
            let! data := step (await (res_json res)) in
            let! status := step (get_prop data "status") in
            let! accepted :=
              (if is_string status "success" then pure true
               else let! api_key := step (get_prop data "api_key") in
                    pure (truthy api_key)) in
            if (accepted : bool) then
              let! api_key := step (get_prop data "api_key") in
              let! _ := App.setItem App.KEY_STORAGE_NAME api_key in
              pure api_key
            else pure key)
           (fun err =>
              let! _ := console_error "Failed to generate API Key" err in
              pure key) p.
Proof.
  intros [Hk|Hk]; [exists JNull|exists (JStr "")];
    (split; [auto|]);
    unfold App.getApiKey, seq_job at 1, App.getItem; cbn; rewrite Hk; reflexivity.
Qed.

Lemma stored_key_cases (p : Page) :
  no_stored_key p
  \/ exists k, localStorage p !! App.KEY_STORAGE_NAME = Some k /\ k <> "".
Proof.
  unfold no_stored_key.
  destruct (localStorage p !! App.KEY_STORAGE_NAME) as [k|]; [|auto].
  destruct (decide (k = "")) as [->|Hne]; [auto|right; eauto].
Qed.

(** X1. With no key in local storage, or an empty one, [getApiKey] asks the
    backend once; when the answer carries a non-empty [api_key] string, that
    key is returned and stored, and the next call answers from storage
    without a request. *)
Theorem getApiKey_generates_once (p : Page) (res : Response)
  (fields : list (string * JsValue)) (k : string) :
  no_stored_key p ->
  transport env (length (fetched p)) = Fulfilled res ->
  res_json res = Fulfilled (JObj fields) ->
  assoc "api_key" fields = JStr k -> k <> "" ->
  exists p',
    App.getApiKey env p = (Normal (JStr k), p')
    /\ fetched p' = fetched p ++ [generate_request]
    /\ localStorage p' = <[ "uls_api_key" := k ]> (localStorage p)
    /\ console p' = console p
    /\ App.getApiKey env p' = (Normal (JStr k), p').
Proof.
  intros Hno Hnet Hjson Hkey Hne.
  destruct (getApiKey_generate p Hno) as (key & _ & ->).
  unfold try_job, seq_job, page_fetch, step. rewrite Hnet. cbn. rewrite Hjson. cbn.
  rewrite Hkey.
  assert (Hk : String.eqb k "" = false) by now apply String.eqb_neq.
  destruct (is_string (assoc "status" fields) "success"); cbn; rewrite ?Hk; cbn;
    (eexists; split; [reflexivity|]; do 3 (split; [reflexivity|]);
     apply getApiKey_stored; [apply lookup_insert_eq|exact Hne]).
Qed.

(** X2. [getApiKey] never throws, touches no element of the page, and makes
    at most one request, the one that asks for a key. *)
Theorem getApiKey_never_throws (p : Page) :
  exists key p',
    App.getApiKey env p = (Normal key, p')
    /\ same_elements p p'
    /\ (fetched p' = fetched p \/ fetched p' = fetched p ++ [generate_request]).
Proof.
  destruct (stored_key_cases p) as [Hno|(k & Hk & Hne)].
  2:{ exists (JStr k), p. rewrite (getApiKey_stored p k Hk Hne).
      unfold same_elements. auto 10. }
  destruct (getApiKey_generate p Hno) as (key & _ & ->).
  unfold try_job, seq_job, page_fetch, step, same_elements.
  destruct (transport env (length (fetched p))) as [res|e]; cbn; [|eauto 15].
  destruct (res_json res) as [data|e]; cbn; [|eauto 15].
  destruct (get_prop data "status") as [status|e] eqn:Hst; cbn; [|eauto 15].
  destruct (is_string status "success"); cbn.
  - destruct (get_prop data "api_key") as [api_key|e]; cbn; eauto 15.
  - destruct (get_prop data "api_key") as [api_key|e]; cbn; [|eauto 15].
    destruct (truthy api_key); cbn; eauto 15.
Qed.

(** X3. When the key cannot be generated because the request fails or its
    body is not JSON, [getApiKey] returns the stored value, which is empty
    or [null], leaves local storage as it was and writes the error to the
    console. *)
Theorem getApiKey_failure_is_logged (p : Page) (e : Error) :
  no_stored_key p ->
  transport env (length (fetched p)) = Rejected e
  \/ (exists res, transport env (length (fetched p)) = Fulfilled res
                  /\ res_json res = Rejected e) ->
  exists key p',
    App.getApiKey env p = (Normal key, p')
    /\ truthy key = false
    /\ localStorage p' = localStorage p
    /\ fetched p' = fetched p ++ [generate_request]
    /\ console p' = console p ++ [("Failed to generate API Key", e)].
Proof.
  intros Hno Hfail.
  destruct (getApiKey_generate p Hno) as (key & Hkey & ->).
  assert (Hfalsy : truthy key = false) by (destruct Hkey as [-> | ->]; reflexivity).
  exists key. unfold try_job, seq_job, page_fetch, step.
  destruct Hfail as [-> | (res & -> & Hjson)]; cbn; [|rewrite Hjson; cbn];
    eexists; (split; [reflexivity|]); cbn; auto.
Qed.

(** X4. When the backend answers [status: 'success'] without an [api_key],
    [getApiKey] returns [undefined] but stores the text "undefined", and the
    next call returns that text as the key. *)
Theorem getApiKey_success_without_key (p : Page) (res : Response)
  (fields : list (string * JsValue)) :
  no_stored_key p ->
  transport env (length (fetched p)) = Fulfilled res ->
  res_json res = Fulfilled (JObj fields) ->
  assoc "status" fields = JStr "success" ->
  assoc "api_key" fields = JUndefined ->
  exists p',
    App.getApiKey env p = (Normal JUndefined, p')
    /\ localStorage p' !! "uls_api_key" = Some "undefined"
    /\ App.getApiKey env p' = (Normal (JStr "undefined"), p').
Proof.
  intros Hno Hnet Hjson Hstatus Hkey.
  destruct (getApiKey_generate p Hno) as (key & _ & ->).
  unfold try_job, seq_job, page_fetch, step. rewrite Hnet. cbn. rewrite Hjson. cbn.
  rewrite Hstatus, Hkey. cbn.
  eexists. split; [reflexivity|].
  split; [apply lookup_insert_eq|].
  apply getApiKey_stored; [apply lookup_insert_eq|discriminate].
Qed.

End KeyFacts.

(** ** [apiFetch] *)

Section PageFetchFacts.

Context (env : Platform).

Lemma apiFetch_stored (p : Page) (k path : string) (opts : FetchOptions) :
  localStorage p !! App.KEY_STORAGE_NAME = Some k -> k <> "" ->
  App.apiFetch env path opts p
  = (match transport env (length (fetched p)) with
     | Fulfilled res => App.answer res
     | Rejected e => Throw e
     end,
     set_fetched (fetched p ++ [("/api" +:+ path, App.with_key (JStr k) opts)]) p).
Proof.
  intros Hk Hne. unfold App.apiFetch, seq_job at 1.
  rewrite (getApiKey_stored env p k Hk Hne).
  unfold seq_job, page_fetch, step.
  destruct (transport env (length (fetched p))); reflexivity.
Qed.

(** X5. With a key in local storage, [apiFetch] makes exactly one request
    whatever the answer is, an error status or a dead network included:
    it goes to "/api" followed by the path, with the method and body of the
    caller and the caller's headers, among which [X-API-KEY] is set to the
    stored key.  Nothing else on the page changes. *)
Theorem page_apiFetch_one_keyed_request (p : Page) (k path : string)
  (opts : FetchOptions) :
  localStorage p !! "uls_api_key" = Some k -> k <> "" ->
  exists c headers,
    App.apiFetch env path opts p
    = (c, set_fetched
            (fetched p
             ++ [("/api" +:+ path,
                  mkFetchOptions (fo_method opts) (fo_body opts) (Some headers))])
            p)
    /\ headers !! "X-API-KEY" = Some k
    /\ forall name, name <> "X-API-KEY" ->
                    headers !! name = default ∅ (fo_headers opts) !! name.
Proof.
  intros Hk Hne. rewrite (apiFetch_stored p k path opts Hk Hne).
  unfold App.with_key. cbn [truthy].
  rewrite (proj2 (String.eqb_neq k "") Hne). cbn [negb to_string].
  eexists _, _. split; [reflexivity|]. split.
  - apply lookup_insert_eq.
  - intros name Hname. now apply lookup_insert_ne.
Qed.

(** X6. When there is no stored key and the request for one fails,
    [apiFetch] still sends the request of the caller, with the caller's
    headers and no [X-API-KEY] of its own. *)
Theorem page_apiFetch_without_key (p : Page) (e : Error) (path : string)
  (opts : FetchOptions) :
  no_stored_key p ->
  transport env (length (fetched p)) = Rejected e ->
  exists c p',
    App.apiFetch env path opts p = (c, p')
    /\ fetched p'
       = fetched p
         ++ [generate_request;
             ("/api" +:+ path,
              mkFetchOptions (fo_method opts) (fo_body opts)
                             (Some (default ∅ (fo_headers opts))))]
    /\ localStorage p' = localStorage p.
Proof.
  intros Hno Hnet.
  destruct (getApiKey_failure_is_logged env p e Hno (or_introl Hnet))
    as (key & p1 & Hget & Hfalsy & Hstore & Hfetched & _).
  unfold App.apiFetch, seq_job at 1. rewrite Hget.
  unfold seq_job, page_fetch, step, App.with_key. rewrite Hfalsy, Hfetched.
  destruct (transport env (length (fetched p ++ [generate_request])));
    cbn; eexists _, _; (split; [reflexivity|]); cbn;
    rewrite <- app_assoc; auto.
Qed.

(** X7. For a response that is not ok, [apiFetch] never returns data: it
    throws.  With a JSON body that has a non-empty [message] text the error
    reads "<status> <message>".  When [json()] rejects, the body is read
    once more, as text, and that read fails because the body is used up:
    what is thrown is the error of the second read, which carries neither
    the status nor anything of the body.  Only a response without a body
    can be read again; it reads as the empty text, and the error reads
    "<status> <status text>". *)
Theorem page_apiFetch_http_error (p : Page) (k path : string)
  (opts : FetchOptions) (res : Response) :
  localStorage p !! "uls_api_key" = Some k -> k <> "" ->
  transport env (length (fetched p)) = Fulfilled res ->
  res_ok res = false ->
  let thrown := (App.apiFetch env path opts p).1 in
  (exists err, thrown = Throw err)
  /\ (forall fields m,
        res_json res = Fulfilled (JObj fields) ->
        assoc "message" fields = JStr m -> m <> "" ->
        thrown
        = Throw (new_Error (number_to_string (res_status res) +:+ " " +:+ m)))
  /\ (forall e,
        res_json res = Rejected e -> res_no_body res = false ->
        thrown = Throw (TypeError (res_used_message res)))
  /\ (forall e,
        res_json res = Rejected e -> res_no_body res = true ->
        thrown
        = Throw (new_Error (number_to_string (res_status res) +:+ " "
                            +:+ res_statusText res))).
Proof.
  intros Hk Hne Hnet Hok thrown. unfold thrown.
  rewrite (apiFetch_stored p k path opts Hk Hne), Hnet. cbn [fst].
  unfold App.answer. rewrite Hok. cbn [negb].
  split; [|split; [|split]].
  - destruct (App.error_text res); cbn; eauto.
  - intros fields m Hjson Hm Hm0. unfold App.error_text.
    rewrite Hjson. cbn. rewrite Hm. cbn.
    rewrite (proj2 (String.eqb_neq m "") Hm0). cbn.
    unfold js_or. cbn. now rewrite (proj2 (String.eqb_neq m "") Hm0).
  - intros e Hjson Hbody. unfold App.error_text, text_again.
    rewrite Hjson, Hbody. reflexivity.
  - intros e Hjson Hbody. unfold App.error_text, text_again.
    rewrite Hjson, Hbody. reflexivity.
Qed.

End PageFetchFacts.

(** ** [renderLogs] *)

Section RenderFacts.

Context (env : Platform).

Lemma append_assoc (a b c : string) : (a +:+ b) +:+ c = a +:+ b +:+ c.
Proof.
  induction a as [|x a IH]; [reflexivity|].
  change (String x (a +:+ b) +:+ c = String x (a +:+ b +:+ c)).
  change (String x ((a +:+ b) +:+ c) = String x (a +:+ b +:+ c)).
  now rewrite IH.
Qed.

Lemma includes_append_r (s a t : string) :
  includes s t = true -> includes s (a +:+ t) = true.
Proof.
  intros H. induction a as [|x a IH]; [exact H|].
  change (String x a +:+ t) with (String x (a +:+ t)).
  cbn [includes]. rewrite IH. now destruct (String.prefix _ _).
Qed.





(** X10. Without entries, [renderLogs] shows the single line "No logs
    available": for a falsy value, the empty array, a number or a boolean.
    For a non-empty text in place of the array it throws and leaves the
    table empty. *)
Theorem renderLogs_without_entries (p : Page) (body : TableBody) :
  logsTableBody p = Some body ->
  (forall arr,
      truthy arr = false \/ arr = JArr [] \/ (exists n, arr = JNum n)
      \/ arr = JBool true ->
      App.renderLogs env arr p
      = (Normal tt,
         set_logsTableBody (Some (mkTableBody App.no_logs_markup [])) p))
  /\ (forall s,
        s <> "" ->
        App.renderLogs env (JStr s) p
        = (Throw (TypeError "arr.forEach is not a function"),
           set_logsTableBody (Some (mkTableBody "" [])) p)).
Proof.
  intros Hbody. unfold App.renderLogs. rewrite Hbody. split.
  - intros arr [Hfalsy|[->|[[n ->]| ->]]].
    + now rewrite Hfalsy.
    + reflexivity.
    + cbn. now destruct (n =? 0).
    + reflexivity.
  - intros s Hne. destruct s as [|c s]; [contradiction|]. reflexivity.
Qed.

(** X11. The markup of a row carries the message of the entry as it is,
    between the tags of its cell: nothing of it is escaped. *)
Theorem row_markup_keeps_message_verbatim (fields : list (string * JsValue))
  (m row : string) :
  assoc "message" fields = JStr m ->
  App.row_markup env (JObj fields) = Normal row ->
  includes ("<td>" +:+ m +:+ "</td>") row = true.
Proof.
  intros Hm. unfold App.row_markup. cbn. rewrite Hm.
  destruct (App.level_toLowerCase env (assoc "level" fields)) as [lower|e];
    cbn; [|discriminate].
  intros [= <-]. cbn [to_string].
  do 12 apply includes_append_r.
  apply includes_prefix.
  rewrite <- (append_assoc m "</td>"), <- (append_assoc "<td>" (m +:+ "</td>")).
  apply prefix_append.
Qed.

End RenderFacts.

(** ** [setStatus] and [refreshLogs] *)

Section StatusFacts.

Context (env : Platform).

Lemma setStatus_shown (msg : string) (isError isSuccess : bool) (p : Page) :
  App.setStatus msg isError isSuccess p
  = (Normal tt,
     shown msg (if isError then "error"
                else if isSuccess then "success" else "info") p).
Proof. unfold App.setStatus, shown. now destruct (apiStatus p). Qed.

Lemma shown_status (msg class : string) (p : Page) :
  apiStatus p <> None ->
  apiStatus (shown msg class p)
  = Some (mkStatusElement msg ("status show " +:+ class)).
Proof. unfold shown. now destruct (apiStatus p). Qed.

Lemma shown_frame (msg class : string) (p : Page) :
  localStorage (shown msg class p) = localStorage p
  /\ logsTableBody (shown msg class p) = logsTableBody p
  /\ messageInput (shown msg class p) = messageInput p
  /\ fetched (shown msg class p) = fetched p
  /\ console (shown msg class p) = console p
  /\ downloads (shown msg class p) = downloads p.
Proof. unfold shown. destruct (apiStatus p); cbn; auto 10. Qed.

Lemma shown_localStorage (msg class : string) (p : Page) :
  localStorage (shown msg class p) = localStorage p.
Proof. apply shown_frame. Qed.

Lemma shown_fetched (msg class : string) (p : Page) :
  fetched (shown msg class p) = fetched p.
Proof. apply shown_frame. Qed.

Lemma shown_messageInput (msg class : string) (p : Page) :
  messageInput (shown msg class p) = messageInput p.
Proof. apply shown_frame. Qed.

Lemma shown_downloads (msg class : string) (p : Page) :
  downloads (shown msg class p) = downloads p.
Proof. apply shown_frame. Qed.

Lemma apiFetch_frame (path : string) (opts : FetchOptions) (p : Page) :
  exists c p', App.apiFetch env path opts p = (c, p') /\ same_elements p p'.
Proof.
  destruct (getApiKey_never_throws env p) as (key & p1 & Hget & Hsame & _).
  unfold App.apiFetch, seq_job at 1. rewrite Hget.
  unfold seq_job, page_fetch, step.
  destruct (transport env (length (fetched p1))); eexists _, _;
    (split; [reflexivity|]); exact Hsame.
Qed.

Lemma append_rows_status (items : list JsValue) :
  forall p c p', App.append_rows env items p = (c, p') ->
                 apiStatus p' = apiStatus p.
Proof.
  induction items as [|log items IH]; intros p c p' Hrun; cbn in Hrun.
  - now injection Hrun as _ <-.
  - destruct (App.row_markup env log); [|now injection Hrun as _ <-].
    apply IH in Hrun. rewrite Hrun. unfold App.appendChild.
    now destruct (logsTableBody p).
Qed.

Lemma renderLogs_status (arr : JsValue) (p : Page) c p' :
  App.renderLogs env arr p = (c, p') -> apiStatus p' = apiStatus p.
Proof.
  unfold App.renderLogs. destruct (logsTableBody p) as [body|].
  2:{ now intros [= _ <-]. }
  destruct (if negb (truthy arr) then Normal true
            else and_then (get_length arr) (fun n => Normal (negb (truthy n))))
    as [[|]|e].
  - now intros [= _ <-].
  - destruct arr; try (now intros [= _ <-]).
    intros Hrun. now apply append_rows_status in Hrun.
  - now intros [= _ <-].
Qed.

(** X12. [refreshLogs] never throws.  On a page without the table it does
    nothing at all; otherwise, when the page has a status line, that line
    ends up either as a success that starts with "Fetched " or as an error
    that starts with "Fetch failed: ". *)
Theorem refreshLogs_never_throws (p : Page) :
  exists p',
    App.refreshLogs env p = (Normal tt, p')
    /\ (logsTableBody p = None -> p' = p)
    /\ (logsTableBody p <> None -> apiStatus p <> None ->
        exists text,
          apiStatus p'
          = Some (mkStatusElement ("Fetched " +:+ text) "status show success")
          \/ apiStatus p'
             = Some (mkStatusElement ("Fetch failed: " +:+ text)
                                     "status show error")).
Proof.
  unfold App.refreshLogs. destruct (logsTableBody p) as [body|] eqn:Hbody.
  2:{ exists p. split; [reflexivity|]. split; [auto|congruence]. }
  unfold seq_job at 1. rewrite setStatus_shown. cbn [negb].
  set (p1 := shown "Fetching logs..." "info" p).
  unfold try_job, seq_job at 1.
  destruct (apiFetch_frame "/logs" App.no_options p1) as (c & p2 & -> & Hsame).
  assert (Hstatus : apiStatus p <> None -> apiStatus p2 <> None).
  { intros Hs. destruct Hsame as (-> & _). unfold p1.
    now rewrite (shown_status _ _ p Hs). }
  destruct c as [data|e].
  2:{ rewrite setStatus_shown. eexists. split; [reflexivity|].
      split; [discriminate|]. intros _ Hs. exists (err_message e). right.
      apply shown_status. auto. }
  unfold seq_job at 1.
  destruct ((let! logs := step (get_prop data "logs") in
             if truthy logs then pure logs
             else let! results := step (get_prop data "results") in
                  pure (results ||| JArr [])) p2) as [[logs|e] p3] eqn:Hlogs.
  2:{ rewrite setStatus_shown. eexists. split; [reflexivity|].
      split; [discriminate|]. intros _ Hs. exists (err_message e). right.
      apply shown_status.
      assert (p3 = p2) as ->; [|auto].
      unfold seq_job, step, pure in Hlogs.
      destruct (get_prop data "logs") as [l|]; [|now injection Hlogs as _ <-].
      destruct (truthy l); [discriminate|].
      destruct (get_prop data "results"); [discriminate|].
      now injection Hlogs as _ <-. }
  assert (p3 = p2) as ->.
  { unfold seq_job, step, pure in Hlogs.
    destruct (get_prop data "logs") as [l|]; [|discriminate].
    destruct (truthy l); [now injection Hlogs as _ <-|].
    destruct (get_prop data "results"); [|discriminate].
    now injection Hlogs as _ <-. }
  unfold seq_job at 1.
  destruct (App.renderLogs env logs p2) as [[[]|e] p4] eqn:Hrender.
  2:{ rewrite setStatus_shown. eexists. split; [reflexivity|].
      split; [discriminate|]. intros _ Hs. exists (err_message e). right.
      apply shown_status. rewrite (renderLogs_status _ _ _ _ Hrender). auto. }
  unfold seq_job, step.
  destruct (get_length logs) as [n|e].
  - rewrite setStatus_shown. eexists. split; [reflexivity|].
    split; [discriminate|]. intros _ Hs. exists (to_string n +:+ " logs"). left.
    apply shown_status. rewrite (renderLogs_status _ _ _ _ Hrender). auto.
  - rewrite setStatus_shown. eexists. split; [reflexivity|].
    split; [discriminate|]. intros _ Hs. exists (err_message e). right.
    apply shown_status. rewrite (renderLogs_status _ _ _ _ Hrender). auto.
Qed.

End StatusFacts.

Section RefreshFacts.

Context (env : Platform).

Lemma shown_some (msg class : string) (p : Page) (s : StatusElement) :
  apiStatus p = Some s ->
  shown msg class p
  = set_apiStatus (Some (mkStatusElement msg ("status show " +:+ class))) p.
Proof. unfold shown. now intros ->. Qed.

Lemma with_key_stored (k : string) (opts : FetchOptions) (path : string) :
  k <> "" ->
  ("/api" +:+ path, App.with_key (JStr k) opts) = keyed_request k path opts.
Proof.
  intros Hne. unfold App.with_key, keyed_request. cbn.
  now rewrite (proj2 (String.eqb_neq k "") Hne).
Qed.

Lemma apiFetch_keyed (p : Page) (k path : string) (opts : FetchOptions) :
  localStorage p !! App.KEY_STORAGE_NAME = Some k -> k <> "" ->
  App.apiFetch env path opts p
  = (next_answer env p,
     set_fetched (fetched p ++ [keyed_request k path opts]) p).
Proof.
  intros Hk Hne. rewrite (apiFetch_stored env p k path opts Hk Hne).
  now rewrite (with_key_stored k opts path Hne).
Qed.


(** X14. With a stored key, when the request fails, by the network or by an
    answer that is not ok, [refreshLogs] reports "Fetch failed: " followed
    by the message of the error, and the table keeps what it showed. *)
Theorem refreshLogs_failure_keeps_table (p : Page) (k : string)
  (status : StatusElement) (body : TableBody) (e : Error) :
  localStorage p !! "uls_api_key" = Some k -> k <> "" ->
  apiStatus p = Some status -> logsTableBody p = Some body ->
  next_answer env p = Throw e ->
  exists p',
    App.refreshLogs env p = (Normal tt, p')
    /\ fetched p' = fetched p ++ [keyed_request k "/logs" App.no_options]
    /\ logsTableBody p' = Some body
    /\ apiStatus p'
       = Some (mkStatusElement ("Fetch failed: " +:+ err_message e)
                               "status show error").
Proof.
  intros Hk Hne Hstatus Hbody Hanswer.
  unfold App.refreshLogs. rewrite Hbody.
  unfold seq_job at 1. rewrite setStatus_shown. cbn [negb].
  rewrite (shown_some _ _ p status Hstatus).
  set (p1 := set_apiStatus _ p).
  unfold try_job, seq_job at 1.
  rewrite (apiFetch_keyed p1 k "/logs" App.no_options Hk Hne).
  change (next_answer env p1) with (next_answer env p). rewrite Hanswer.
  rewrite setStatus_shown.
  eexists. split; [reflexivity|].
  split; [reflexivity|]. split; [exact Hbody|reflexivity].
Qed.

End RefreshFacts.

(** ** [submitLog] *)

Section SubmitFacts.

Context (env : Platform).

Lemma next_answer_shown (msg class : string) (p : Page) :
  next_answer env (shown msg class p) = next_answer env p.
Proof. unfold next_answer, shown. now destruct (apiStatus p). Qed.

Lemma apiFetch_keyed_shown (msg class : string) (p : Page) (k path : string)
  (opts : FetchOptions) :
  localStorage p !! App.KEY_STORAGE_NAME = Some k -> k <> "" ->
  App.apiFetch env path opts (shown msg class p)
  = (next_answer env p,
     set_fetched (fetched p ++ [keyed_request k path opts]) (shown msg class p)).
Proof.
  intros Hk Hne.
  rewrite (apiFetch_keyed env (shown msg class p) k path opts); [|
    now rewrite shown_localStorage|exact Hne].
  now rewrite next_answer_shown, shown_fetched.
Qed.

(** X15. Without a message, for want of the input or because its value is
    blank once trimmed, [submitLog] sends nothing: it only reports "Please
    enter a message" as an error. *)
Theorem submitLog_blank_message (p : Page) :
  messageInput p = None
  \/ (exists value, messageInput p = Some value /\ trim env value = "") ->
  App.submitLog env p = (Normal tt, shown "Please enter a message" "error" p)
  /\ fetched (shown "Please enter a message" "error" p) = fetched p.
Proof.
  intros Hblank. split; [|apply shown_fetched].
  unfold App.submitLog.
  destruct Hblank as [-> | (value & -> & ->)]; cbn [String.eqb];
    now rewrite setStatus_shown.
Qed.

(** X16. With a stored key, a message and an answer that is ok,
    [submitLog] posts the payload as JSON to "/api/logs" with the key among
    the headers, reports "Log submitted!", empties the message input, and
    goes on as [refreshLogs] does from there. *)
Theorem submitLog_posts_then_refreshes (p : Page) (k value : string)
  (data : JsValue) :
  localStorage p !! "uls_api_key" = Some k -> k <> "" ->
  messageInput p = Some value -> trim env value <> "" ->
  next_answer env p = Normal data ->
  App.submitLog env p
  = App.refreshLogs env
      (set_messageInput (Some "")
         (shown "Log submitted!" "success"
            (set_fetched
               (fetched p
                ++ [keyed_request k "/logs" (log_post env p (trim env value))])
               (shown "Submitting..." "info" p)))).
Proof.
  intros Hk Hne Hmsg Htrim Hanswer. unfold App.submitLog. rewrite Hmsg.
  rewrite (proj2 (String.eqb_neq _ _) Htrim).
  unfold seq_job at 1. rewrite setStatus_shown. cbn [negb].
  unfold try_job, seq_job at 1.
  rewrite (apiFetch_keyed_shown _ _ p k "/logs" _ Hk Hne). rewrite Hanswer.
  unfold seq_job at 1. rewrite setStatus_shown. cbn [negb].
  unfold seq_job at 1.
  destruct (refreshLogs_never_throws env
              (set_messageInput (Some "")
                 (shown "Log submitted!" "success"
                    (set_fetched
                       (fetched p
                        ++ [keyed_request k "/logs"
                              (log_post env p (trim env value))])
                       (shown "Submitting..." "info" p)))))
    as (p' & Hrefresh & _).
  unfold log_post in Hrefresh |- *. now rewrite Hrefresh.
Qed.

(** X17. With a stored key and a message, when the request fails
    [submitLog] reports "Submit failed: " followed by the message of the
    error; the message input keeps its value and no refresh follows. *)
Theorem submitLog_failure_keeps_message (p : Page) (k value : string)
  (e : Error) :
  localStorage p !! "uls_api_key" = Some k -> k <> "" ->
  messageInput p = Some value -> trim env value <> "" ->
  next_answer env p = Throw e ->
  exists p',
    App.submitLog env p = (Normal tt, p')
    /\ p' = shown ("Submit failed: " +:+ err_message e) "error"
              (set_fetched
                 (fetched p
                  ++ [keyed_request k "/logs" (log_post env p (trim env value))])
                 (shown "Submitting..." "info" p))
    /\ messageInput p' = Some value
    /\ fetched p'
       = fetched p
         ++ [keyed_request k "/logs" (log_post env p (trim env value))].
Proof.
  intros Hk Hne Hmsg Htrim Hanswer. unfold App.submitLog. rewrite Hmsg.
  rewrite (proj2 (String.eqb_neq _ _) Htrim).
  unfold seq_job at 1. rewrite setStatus_shown. cbn [negb].
  unfold try_job, seq_job at 1.
  rewrite (apiFetch_keyed_shown _ _ p k "/logs" _ Hk Hne). rewrite Hanswer.
  rewrite setStatus_shown.
  eexists. split; [reflexivity|]. split; [reflexivity|].
  split.
  - rewrite shown_messageInput. cbn. now rewrite shown_messageInput.
  - now rewrite shown_fetched.
Qed.

End SubmitFacts.

(** ** [exportCSV] *)

Section ExportFacts.

Context (env : Platform).

Lemma getApiKey_stored_shown (msg class : string) (p : Page) (k : string) :
  localStorage p !! App.KEY_STORAGE_NAME = Some k -> k <> "" ->
  App.getApiKey env (shown msg class p) = (Normal (JStr k), shown msg class p).
Proof.
  intros Hk Hne. apply getApiKey_stored; [|exact Hne].
  now rewrite (proj1 (shown_frame msg class p)).
Qed.

(** X18. With a stored key and an answer that is ok and has a body,
    [exportCSV] makes one GET request to "/api/logs/export" with the key as
    its only header, offers the body for download as "logs.csv" and reports
    a success. *)
Theorem exportCSV_downloads_the_body (p : Page) (k : string) (res : Response)
  (bytes : list Byte.byte) :
  localStorage p !! "uls_api_key" = Some k -> k <> "" ->
  transport env (length (fetched p)) = Fulfilled res ->
  res_ok res = true -> res_blob res = Some (Fulfilled bytes) ->
  App.exportCSV env p
  = (Normal tt,
     shown "CSV Exported & Saved to server!" "success"
       (set_downloads (downloads p ++ [("logs.csv", bytes)])
          (set_fetched (fetched p ++ [export_request k])
             (shown "Preparing Export..." "info" p)))).
Proof.
  intros Hk Hne Hnet Hok Hblob. unfold App.exportCSV.
  unfold seq_job at 1. rewrite setStatus_shown. cbn [negb].
  unfold seq_job at 1. rewrite (getApiKey_stored_shown _ _ p k Hk Hne).
  unfold try_job, seq_job at 1. unfold page_fetch.
  rewrite shown_fetched, Hnet.
  unfold seq_job at 1, step, App.check_ok. rewrite Hok. cbn [negb].
  unfold seq_job at 1, App.read_blob. rewrite Hblob. cbn [await].
  unfold seq_job, App.download. rewrite setStatus_shown. cbn.
  now rewrite shown_downloads.
Qed.

(** X19. When local storage has no key and none can be generated,
    [exportCSV] still sends its request, with the text "null" as
    [X-API-KEY]. *)
Theorem exportCSV_without_key_sends_null (p : Page) (e : Error) :
  localStorage p !! "uls_api_key" = None ->
  transport env (length (fetched p)) = Rejected e ->
  exists p',
    App.exportCSV env p = (Normal tt, p')
    /\ fetched p' = fetched p ++ [generate_request; export_request "null"].
Proof.
  intros Hk Hnet. unfold App.exportCSV.
  unfold seq_job at 1. rewrite setStatus_shown. cbn [negb].
  set (p1 := shown "Preparing Export..." "info" p).
  assert (Hf1 : fetched p1 = fetched p) by apply shown_fetched.
  assert (Hs1 : localStorage p1 = localStorage p) by apply shown_localStorage.
  assert (Hget : exists p2,
            App.getApiKey env p1 = (Normal JNull, p2)
            /\ fetched p2 = fetched p ++ [generate_request]).
  { change (localStorage p !! App.KEY_STORAGE_NAME = None) in Hk.
    unfold App.getApiKey, seq_job at 1, App.getItem. rewrite Hs1, Hk.
    cbn [truthy negb]. unfold try_job, seq_job at 1, page_fetch.
    rewrite Hf1, Hnet. unfold seq_job, console_error, pure.
    eexists. split; reflexivity. }
  destruct Hget as (p2 & Hget & Hf2).
  unfold seq_job at 1. rewrite Hget.
  unfold try_job, seq_job, page_fetch, step, App.download. rewrite Hf2.
  destruct (transport env (length (fetched p ++ [generate_request])))
    as [res|e'].
  - destruct (App.check_ok res) as [[]|e'];
      [destruct (App.read_blob res) as [blob|e']|];
      rewrite setStatus_shown; eexists; (split; [reflexivity|]);
      rewrite shown_fetched; cbn; now rewrite <- app_assoc.
  - rewrite setStatus_shown; eexists; (split; [reflexivity|]).
    rewrite shown_fetched; cbn; now rewrite <- app_assoc.
Qed.

(** X20. With a stored key, when the answer is not ok [exportCSV] offers
    nothing for download and reports "Export failed: " followed by the
    [message] of the JSON body when it has one, and by "Export failed" once
    more when the body is not JSON. *)
Theorem exportCSV_failure_text (p : Page) (k : string) (res : Response) :
  localStorage p !! "uls_api_key" = Some k -> k <> "" ->
  transport env (length (fetched p)) = Fulfilled res ->
  res_ok res = false ->
  (forall fields m,
      res_json res = Fulfilled (JObj fields) ->
      assoc "message" fields = JStr m -> m <> "" ->
      App.exportCSV env p
      = (Normal tt,
         shown ("Export failed: " +:+ m) "error"
           (set_fetched (fetched p ++ [export_request k])
              (shown "Preparing Export..." "info" p))))
  /\ (forall e,
        res_json res = Rejected e ->
        App.exportCSV env p
        = (Normal tt,
           shown "Export failed: Export failed" "error"
             (set_fetched (fetched p ++ [export_request k])
                (shown "Preparing Export..." "info" p)))).
Proof.
  intros Hk Hne Hnet Hok.
  assert (Hrun : forall e, App.check_ok res = Throw e ->
            App.exportCSV env p
            = (Normal tt,
               shown ("Export failed: " +:+ err_message e) "error"
                 (set_fetched (fetched p ++ [export_request k])
                    (shown "Preparing Export..." "info" p)))).
  { intros e He. unfold App.exportCSV.
    unfold seq_job at 1. rewrite setStatus_shown. cbn [negb].
    unfold seq_job at 1. rewrite (getApiKey_stored_shown _ _ p k Hk Hne).
    unfold try_job, seq_job at 1. unfold page_fetch.
    rewrite shown_fetched, Hnet.
    unfold seq_job at 1, step. rewrite He. now rewrite setStatus_shown. }
  split.
  - intros fields m Hjson Hm Hm0. apply (Hrun (new_Error m)).
    unfold App.check_ok, App.json_or_empty. rewrite Hok, Hjson. cbn.
    rewrite Hm. cbn. now rewrite (proj2 (String.eqb_neq m "") Hm0).
  - intros e Hjson. apply (Hrun (new_Error "Export failed")).
    unfold App.check_ok, App.json_or_empty. now rewrite Hok, Hjson.
Qed.


End ExportFacts.

(** * The page script of src/script.js *)

Section ScriptFetchFacts.

Context (env : Platform).

(** X22. [apiFetch] of script.js makes exactly one request whatever the
    answer is, to the hard-coded base followed by the path, with the
    caller's method, body and headers, among which [X-API-KEY] is always
    the hard-coded key.  Nothing else on the page changes. *)
Theorem script_apiFetch_forces_key (p : Page) (path : string)
  (options : FetchOptions) :
  exists c headers,
    Script.apiFetch env path options p
    = (c, set_fetched
            (fetched p
             ++ [("http://localhost:5000/api" +:+ path,
                  mkFetchOptions (fo_method options) (fo_body options)
                                 (Some headers))])
            p)
    /\ headers !! "X-API-KEY" = Some "uls_c6f1942d398cffa112c51c5b10c8f257"
    /\ forall name, name <> "X-API-KEY" ->
                    headers !! name = default ∅ (fo_headers options) !! name.
Proof.
  unfold Script.apiFetch, seq_job, page_fetch, step, Script.with_key.
  destruct (transport env (length (fetched p))); eexists _, _;
    (split; [reflexivity|]);
    (split; [apply lookup_insert_eq|]);
    intros name Hname; now apply lookup_insert_ne.
Qed.

Lemma script_apiFetch_answer (p : Page) (path : string)
  (options : FetchOptions) (res : Response) :
  transport env (length (fetched p)) = Fulfilled res ->
  (Script.apiFetch env path options p).1 = Script.answer res.
Proof.
  intros Hnet. unfold Script.apiFetch, seq_job, page_fetch, step.
  now rewrite Hnet.
Qed.

(** X23. For a response that is ok, [apiFetch] of script.js parses the body
    only when the content type contains "json"; for any other content type,
    or none, it gives back the response itself with its body unread. *)
Theorem script_apiFetch_success (p : Page) (path : string)
  (options : FetchOptions) (res : Response) :
  transport env (length (fetched p)) = Fulfilled res ->
  res_ok res = true ->
  let result := (Script.apiFetch env path options p).1 in
  (forall ct data,
      res_content_type res = Some ct -> includes "json" ct = true ->
      res_json res = Fulfilled data ->
      result = Normal (Script.Parsed data))
  /\ (res_content_type res = None
      \/ (exists ct, res_content_type res = Some ct /\ includes "json" ct = false) ->
      result = Normal (Script.Raw res)).
Proof.
  intros Hnet Hok result. unfold result.
  rewrite (script_apiFetch_answer p path options res Hnet).
  unfold Script.answer, Script.declares_json. rewrite Hok. cbn [negb].
  split.
  - intros ct data -> -> ->. reflexivity.
  - intros [-> | (ct & -> & ->)]; reflexivity.
Qed.

(** X24. For a response that is not ok, [apiFetch] of script.js throws an
    error whose message is the [message] of the JSON body when it has a
    non-empty one, and the status text when the JSON body has none; the
    status code is not part of the message. *)
Theorem script_apiFetch_http_error (p : Page) (path : string)
  (options : FetchOptions) (res : Response) :
  transport env (length (fetched p)) = Fulfilled res ->
  res_ok res = false ->
  let thrown := (Script.apiFetch env path options p).1 in
  (exists err, thrown = Throw err)
  /\ (forall fields m,
        res_json res = Fulfilled (JObj fields) ->
        assoc "message" fields = JStr m -> m <> "" ->
        thrown = Throw (new_Error m))
  /\ (forall fields,
        res_json res = Fulfilled (JObj fields) ->
        truthy (assoc "message" fields) = false ->
        thrown = Throw (new_Error (res_statusText res))).
Proof.
  intros Hnet Hok thrown. unfold thrown.
  rewrite (script_apiFetch_answer p path options res Hnet).
  unfold Script.answer. rewrite Hok. cbn [negb].
  split; [|split].
  - destruct (Script.error_text res); cbn; eauto.
  - intros fields m Hjson Hm Hne. unfold Script.error_text.
    rewrite Hjson. cbn. rewrite Hm. unfold js_or. cbn.
    rewrite (proj2 (String.eqb_neq m "") Hne). cbn.
    now rewrite (proj2 (String.eqb_neq m "") Hne).
  - intros fields Hjson Hfalsy. unfold Script.error_text.
    rewrite Hjson. cbn. unfold js_or. rewrite Hfalsy. cbn.
    now destruct (String.eqb (res_statusText res) "").
Qed.

(** X25. When the answer is ok but does not declare JSON, [refreshLogs] of
    script.js does not fail: it shows "No logs found" and reports "Loaded 0
    logs" as a success. *)
Theorem script_refreshLogs_non_json (p : Page) (status : StatusElement)
  (body : TableBody) (res : Response) :
  apiStatus p = Some status -> logsTableBody p = Some body ->
  transport env (length (fetched p)) = Fulfilled res ->
  res_ok res = true -> Script.declares_json res = false ->
  exists p',
    Script.refreshLogs env p = (Normal tt, p')
    /\ logsTableBody p' = Some (mkTableBody Script.no_logs_markup [])
    /\ apiStatus p'
       = Some (mkStatusElement "Loaded 0 logs" "status show success").
Proof.
  intros Hstatus Hbody Hnet Hok Hjson.
  unfold Script.refreshLogs, try_job, seq_job at 1, Script.setStatus.
  rewrite Hstatus.
  unfold seq_job at 1, Script.apiFetch, seq_job at 1, page_fetch. cbn [fetched set_apiStatus].
  rewrite Hnet. unfold step, Script.answer. rewrite Hok, Hjson. cbn [negb].
  unfold seq_job at 1. cbn [Script.logs_of].
  unfold seq_job at 1, Script.renderLogs. cbn. rewrite Hbody. cbn.
  eexists. split; [reflexivity|]. split; reflexivity.
Qed.

End ScriptFetchFacts.

Section ScriptSubmitFacts.

Context (env : Platform).

Lemma script_setStatus_shown (msg type : string) (p : Page) :
  Script.setStatus msg type p = (Normal tt, shown msg type p).
Proof. unfold Script.setStatus, shown. now destruct (apiStatus p). Qed.

Lemma script_refreshLogs_never_throws (p : Page) :
  exists p', Script.refreshLogs env p = (Normal tt, p').
Proof.
  unfold Script.refreshLogs, try_job.
  match goal with
  | |- context [let (c, q) := ?body p in _] =>
      destruct (body p) as [[[]|e] q]
  end; [eauto|]. rewrite script_setStatus_shown. eauto.
Qed.

(** X26. In script.js a submit from a page that lacks one of the four other
    inputs fails before anything is sent: the status reads "Submit failed: "
    followed by the error, and no request is made. *)
Theorem script_submitLog_missing_input (p : Page) (value : string) :
  messageInput p = Some value -> trim env value <> "" ->
  serviceInput p = None \/ levelInput p = None
  \/ serverIdInput p = None \/ traceIdInput p = None ->
  exists text,
    Script.submitLog env p
    = (Normal tt, shown ("Submit failed: " +:+ text) "error" p)
    /\ fetched (shown ("Submit failed: " +:+ text) "error" p) = fetched p.
Proof.
  intros Hmsg Htrim Hmissing.
  exists "Cannot read properties of null (reading 'value')".
  split; [|apply shown_fetched].
  unfold Script.submitLog. rewrite Hmsg, (proj2 (String.eqb_neq _ _) Htrim).
  unfold try_job, seq_job at 1, step.
  assert (Hpayload : Script.payload p
            = Throw (TypeError "Cannot read properties of null (reading 'value')")).
  { unfold Script.payload. rewrite Hmsg.
    destruct Hmissing as [-> | [-> | [-> | ->]]]; cbn;
      repeat match goal with
             | |- context [Script.input_value ?i] => destruct i; cbn
             end; reflexivity. }
  rewrite Hpayload. now rewrite script_setStatus_shown.
Qed.

(** X27. In script.js a submit with every input present posts the message
    as it was typed, not trimmed, with the hard-coded key; after an answer
    that is ok it reports "Log submitted", empties the message input and
    goes on as [refreshLogs] does from there. *)
Theorem script_submitLog_posts_untrimmed (p : Page)
  (service level value server trace_id : string) (res : Response)
  (data : Script.Fetched) :
  serviceInput p = Some service -> levelInput p = Some level ->
  messageInput p = Some value -> serverIdInput p = Some server ->
  traceIdInput p = Some trace_id -> trim env value <> "" ->
  transport env (length (fetched p)) = Fulfilled res ->
  Script.answer res = Normal data ->
  Script.submitLog env p
  = Script.refreshLogs env
      (set_messageInput (Some "")
         (shown "Log submitted" "success"
            (set_fetched
               (fetched p
                ++ [("http://localhost:5000/api/logs",
                     Script.with_key
                       (Script.log_post env
                          (JObj [("service",
                                  JStr (if String.eqb service "" then "unknown"
                                        else service));
                                 ("level", JStr level);
                                 ("message", JStr value);
                                 ("server", JStr server);
                                 ("trace_id", JStr trace_id)])))])
               p))).
Proof.
  intros Hservice Hlevel Hmsg Hserver Htrace Htrim Hnet Hanswer.
  unfold Script.submitLog. rewrite Hmsg, (proj2 (String.eqb_neq _ _) Htrim).
  unfold try_job, seq_job at 1, step, Script.payload.
  rewrite Hservice, Hlevel, Hmsg, Hserver, Htrace. cbn [Script.input_value and_then].
  unfold seq_job at 1, Script.apiFetch, seq_job at 1, page_fetch.
  rewrite Hnet. unfold step. rewrite Hanswer.
  unfold seq_job at 1. rewrite script_setStatus_shown.
  unfold seq_job.
  match goal with
  | |- context [Script.refreshLogs env ?q] =>
      destruct (script_refreshLogs_never_throws q) as (q' & Hq)
  end.
  assert (Hor : JStr service ||| JStr "unknown"
                = JStr (if String.eqb service "" then "unknown" else service)).
  { unfold js_or. cbn. now destruct (String.eqb service ""). }
  rewrite Hor in Hq |- *. now rewrite Hq.
Qed.

(** X28. In script.js [exportCSV] never throws.  For an answer that is not
    ok it reports "Export failed: Export failed" whatever the body says and
    offers nothing; for an answer that is ok it offers the body as
    "logs.csv" and reports "Export successful".  Either way one request is
    made, with the hard-coded key as its only header. *)
Theorem script_exportCSV_outcomes (p : Page) (res : Response) :
  transport env (length (fetched p)) = Fulfilled res ->
  let sent :=
    set_fetched
      (fetched p
       ++ [("http://localhost:5000/api/logs/export",
            mkFetchOptions None None
              (Some (<[ "X-API-KEY" := "uls_c6f1942d398cffa112c51c5b10c8f257" ]>
                       ∅)))])
      (shown "Exporting..." "info" p) in
  (res_ok res = false ->
   Script.exportCSV env p
   = (Normal tt, shown "Export failed: Export failed" "error" sent))
  /\ (forall bytes,
        res_ok res = true -> res_blob res = Some (Fulfilled bytes) ->
        Script.exportCSV env p
        = (Normal tt,
           shown "Export successful" "success"
             (set_downloads (downloads p ++ [("logs.csv", bytes)]) sent))).
Proof.
  intros Hnet sent. unfold sent. clear sent.
  assert (Hstart : forall tail : Response -> Job unit,
            try_job
              (let! _ := Script.setStatus "Exporting..." "info" in
               let! res := page_fetch env (Script.apiBase +:+ "/logs/export")
                             (mkFetchOptions None None
                                (Some (<[ "X-API-KEY" := Script.apiKey ]> ∅))) in
               tail res)
              (fun e => Script.setStatus ("Export failed: " +:+ err_message e)
                                         "error") p
            = try_job (tail res)
                (fun e => Script.setStatus ("Export failed: " +:+ err_message e)
                                           "error")
                (set_fetched
                   (fetched p
                    ++ [(Script.apiBase +:+ "/logs/export",
                         mkFetchOptions None None
                           (Some (<[ "X-API-KEY" := Script.apiKey ]> ∅)))])
                   (shown "Exporting..." "info" p))).
  { intros tail. unfold try_job, seq_job at 1.
    rewrite script_setStatus_shown.
    unfold seq_job at 1, page_fetch. now rewrite shown_fetched, Hnet. }
  unfold Script.exportCSV. rewrite Hstart. unfold try_job.
  split.
  - intros Hok. unfold seq_job at 1. rewrite Hok. cbn [negb].
    unfold raise. now rewrite script_setStatus_shown.
  - intros bytes Hok Hblob. unfold seq_job at 1. rewrite Hok. cbn [negb].
    unfold pure at 1, seq_job at 1, step, App.read_blob. rewrite Hblob.
    cbn [await]. unfold seq_job, App.download.
    rewrite script_setStatus_shown. cbn. now rewrite shown_downloads.
Qed.

End ScriptSubmitFacts.

(** * More on the resilient wrapper *)

Section MoreFacts.

Context (apiBase apiKey : string) (net : nat -> FetchOutcome)
        (due : nat -> nat -> bool) (path : string) (opts : Options).

Local Abbreviation try_block := (try_block apiBase apiKey net due path opts).
Local Abbreviation retry_loop := (retry_loop apiBase apiKey net due path opts).
Local Abbreviation run_events := (run_events apiBase apiKey net path opts).
Local Abbreviation attempt_events := (attempt_events apiBase apiKey path opts).
Local Abbreviation apiFetch := (apiFetch apiBase apiKey net due path opts).

Lemma requests_run_exact (n : nat) :
  forall a id k,
    requests (run_events a id k n)
    = map (fun i : nat => (url apiBase path, fetch_init apiKey opts (id + i)))
          (seq 0 n).
Proof.
  induction n as [|n IH]; intros a id k; [reflexivity|].
  destruct n as [|n].
  - cbn. rewrite app_nil_r, Nat.add_0_r. unfold attempt_events.
    destruct (net k); reflexivity.
  - rewrite run_events_step, requests_app. cbn [requests]. rewrite IH.
    replace (requests (attempt_events id (net k)))
      with [(url apiBase path, fetch_init apiKey opts id)]
      by (unfold attempt_events; destruct (net k); reflexivity).
    cbn [app]. change (seq 0 (S (S n))) with (0%nat :: seq 1 (S n)).
    cbn [map]. rewrite Nat.add_0_r. f_equal.
    rewrite <- (seq_shift (S n) 0), map_map. apply map_ext.
    intros i. do 2 f_equal. lia.
Qed.

(** X29. Every attempt of a call is sent to the resolved URL with the
    method and body of the caller, with credentials "include" unless
    [includeCredentials] is false, in which case "omit", and with the
    signal of a controller of its own, the i-th attempt with the i-th. *)
Theorem every_attempt_forwards_options :
  exists r w,
    apiFetch = Some (r, w)
    /\ requests (trace w)
       = map (fun i : nat =>
                (apiBase +:+ path,
                 mkFetchInit (fo_method (opt_rest opts)) (fo_body (opt_rest opts))
                             (headers apiKey opts)
                             (match opt_includeCredentials opts with
                              | Some false => "omit"
                              | _ => "include"
                              end)
                             i))
             (seq 0 (attempts w)).
Proof.
  destruct (apiFetch_finishes apiBase apiKey net due path opts)
    as (r & w & Hrun & _ & Htrace & _).
  exists r, w. split; [exact Hrun|].
  rewrite Htrace at 1. rewrite requests_run_exact. apply map_ext. intros i.
  unfold url, fetch_init, includeCredentials, fetchOptions. cbn [Nat.add].
  now destruct (opt_includeCredentials opts) as [[|]|].
Qed.

#[local] Arguments pass_time : simpl never.

Lemma pass_time_gone (late : nat -> bool) (own : option nat) (w : World) :
  exists gone : gset nat,
    gone ⊆ armed w
    /\ (forall id, own = Some id -> id ∉ gone)
    /\ pass_time late own w
       = mkWorld (trace w) (armed w ∖ gone) (expired w ∪ gone)
                 (next_timer w) (fetches w).
Proof.
  eexists. split; [|split; [|reflexivity]].
  - intros id [_ Hin]%elem_of_filter. exact Hin.
  - intros id -> [[_ Hown] _]%elem_of_filter. now apply Hown.
Qed.

(** The timers that one attempt leaves behind. *)
Lemma try_block_timers (w : World) :
  (forall id, id ∈ armed w ∪ expired w -> (id < next_timer w)%nat) ->
  armed w ## expired w ->
  let w1 := (try_block w).2 in
  (forall id,
      id ∈ armed w1 ∪ expired w1
      <-> id ∈ armed w ∪ expired w
          \/ (id = next_timer w /\ exists msg, net (fetches w) = NetworkFailure msg))
  /\ armed w1 ## expired w1
  /\ (forall msg, net (fetches w) = NetworkFailure msg ->
                  next_timer w ∈ armed w1).
Proof.
  intros Hold Hdisjoint.
  assert (Hfresh : next_timer w ∉ armed w ∪ expired w).
  { intros Hin. apply Hold in Hin. lia. }
  unfold try_block, bind, setTimeout, fetch, clearTimeout, lift. cbn.
  set (w0 := mkWorld _ _ _ _ _).
  set (late := due _).
  destruct (pass_time_gone late (Some (next_timer w)) w0)
    as (gone & Hsub & Hown & ->).
  specialize (Hown _ eq_refl).
  clearbody late. subst w0. cbn in *.
  assert (Hrest : forall id,
            id ∈ armed w ∪ expired w ->
            id <> next_timer w
            /\ (id ∈ gone
                \/ ((id ∉ gone) /\ (id ∈ armed w \/ id ∈ expired w)))).
  { intros id Hin. split; [intros ->; contradiction|].
    apply elem_of_union in Hin.
    destruct (decide (id ∈ gone)); [now left|now right]. }
  assert (Hclear : forall id,
            id ∈ ((({[ next_timer w ]} ∪ armed w) ∖ gone) ∖ {[ next_timer w ]})
                 ∪ (expired w ∪ gone)
            <-> id ∈ armed w ∪ expired w).
  { intros id. split; [set_solver|].
    intros Hin. destruct (Hrest id Hin) as [Hne [Hg|[Hg Hin']]]; set_solver. }
  destruct (net (fetches w)) as [res| |msg]; cbn.
  - split; [|split; [|discriminate]].
    + intros id. rewrite Hclear. split; [now left|].
      now intros [Hin|[_ [msg [=]]]].
    + set_solver.
  - split; [|split; [|discriminate]].
    + intros id. rewrite Hclear. split; [now left|].
      now intros [Hin|[_ [msg [=]]]].
    + set_solver.
  - split; [|split].
    + intros id. split; [set_solver|].
      intros [Hin|[Heq _]].
      * destruct (Hrest id Hin) as [Hne [Hg|[Hg Hin']]]; set_solver.
      * subst id. set_solver.
    + set_solver.
    + intros msg' _. set_solver.
Qed.

Lemma sleep_timers (ms : Number) (w : World) :
  let w' := (sleep due ms w).2 in
  (forall id, id ∈ armed w' ∪ expired w' <-> id ∈ armed w ∪ expired w)
  /\ (armed w ## expired w -> armed w' ## expired w')
  /\ next_timer w' = next_timer w
  /\ fetches w' = fetches w.
Proof.
  unfold sleep. cbn [snd].
  set (w0 := log _ w). set (late := due _).
  destruct (pass_time_gone late None w0) as (gone & Hsub & _ & ->).
  clearbody late. subst w0. cbn in *.
  split; [|split; [|split; reflexivity]].
  - intros id. split; [set_solver|].
    intros Hin. destruct (decide (id ∈ gone)); set_solver.
  - set_solver.
Qed.

Lemma retry_loop_timers (fuel : nat) :
  forall (a : Z) (le : option Error) (w : World) r w',
    retry_loop fuel a le w = Some (r, w') ->
    (forall id, id ∈ armed w ∪ expired w -> (id < next_timer w)%nat) ->
    armed w ## expired w ->
    exists n : nat,
      next_timer w' = (next_timer w + n)%nat
      /\ fetches w' = (fetches w + n)%nat
      /\ (n = 0%nat -> w' = w /\ retries opts < a)
      /\ (forall id,
            id ∈ armed w' ∪ expired w'
            <-> id ∈ armed w ∪ expired w
                \/ ((next_timer w <= id < next_timer w')%nat
                    /\ exists msg,
                         net (fetches w + (id - next_timer w))%nat
                         = NetworkFailure msg))
      /\ armed w' ## expired w'
      /\ (forall (j : nat) msg,
            n = S j -> net (fetches w + j)%nat = NetworkFailure msg ->
            (next_timer w + j)%nat ∈ armed w').
Proof.
  induction fuel as [|fuel IH]; intros a le w r w' Hrun Hold Hdisjoint;
    [discriminate|].
  cbn [retry_loop] in Hrun.
  destruct (Z.leb_spec a (retries opts)) as [Hle|Hgt].
  2:{ injection Hrun as <- <-. exists 0%nat.
      rewrite !Nat.add_0_r.
      split; [reflexivity|]. split; [reflexivity|]. split; [auto|].
      split; [|split; [exact Hdisjoint|discriminate]].
      intros id. split; [auto|]. intros [H|[H _]]; [exact H|lia]. }
  destruct (try_block_timers w Hold Hdisjoint) as (Hleft & Hdis1 & Hlast1).
  destruct (try_block_run apiBase apiKey net due path opts w)
    as (w1 & Htry & _ & Hid & Hfe).
  rewrite Htry in Hrun, Hleft, Hdis1, Hlast1. cbn [snd] in Hleft, Hdis1, Hlast1.
  assert (Hone : forall id,
            id ∈ armed w1 ∪ expired w1
            <-> id ∈ armed w ∪ expired w
                \/ ((next_timer w <= id < next_timer w1)%nat
                    /\ exists msg,
                         net (fetches w + (id - next_timer w))%nat
                         = NetworkFailure msg)).
  { intros id. rewrite Hleft, Hid. split.
    - intros [Hin|[-> Hmsg]]; [auto|]. right. split; [lia|].
      now replace (fetches w + (next_timer w - next_timer w))%nat
        with (fetches w) by lia.
    - intros [Hin|[Hrange Hmsg]]; [auto|]. right.
      assert (id = next_timer w) as -> by lia. split; [reflexivity|].
      now replace (fetches w + (next_timer w - next_timer w))%nat
        with (fetches w) in Hmsg by lia. }
  assert (Hdone : forall x, Some (x, w1) = Some (r, w') ->
            exists n : nat,
              next_timer w' = (next_timer w + n)%nat
              /\ fetches w' = (fetches w + n)%nat
              /\ (n = 0%nat -> w' = w /\ retries opts < a)
              /\ (forall id,
                    id ∈ armed w' ∪ expired w'
                    <-> id ∈ armed w ∪ expired w
                        \/ ((next_timer w <= id < next_timer w')%nat
                            /\ exists msg,
                                 net (fetches w + (id - next_timer w))%nat
                                 = NetworkFailure msg))
              /\ armed w' ## expired w'
              /\ (forall (j : nat) msg,
                    n = S j -> net (fetches w + j)%nat = NetworkFailure msg ->
                    (next_timer w + j)%nat ∈ armed w')).
  { intros x [= _ <-]. exists 1%nat.
    split; [lia|]. split; [lia|]. split; [discriminate|].
    split; [exact Hone|]. split; [exact Hdis1|].
    intros j msg [= <-]. rewrite !Nat.add_0_r. apply Hlast1. }
  destruct (try_result apiBase path (net (fetches w))) as [data|error];
    [now apply Hdone with (Returns data)|].
  destruct (String.eqb (err_name error) "AbortError"); [eapply Hdone; eauto|].
  destruct (client_error error); [eapply Hdone; eauto|].
  set (w2 := if a <? retries opts
             then (sleep due (js_mul (retryDelay opts) (a + 1)) w1).2
             else w1) in Hrun.
  assert (Hw2 : (forall id, id ∈ armed w2 ∪ expired w2
                            <-> id ∈ armed w1 ∪ expired w1)
                /\ armed w2 ## expired w2
                /\ next_timer w2 = next_timer w1
                /\ fetches w2 = fetches w1
                /\ (retries opts < a + 1 -> w2 = w1)).
  { unfold w2. destruct (Z.ltb_spec a (retries opts)) as [Hlt|Hge].
    - destruct (sleep_timers (js_mul (retryDelay opts) (a + 1)) w1)
        as (H1 & H2 & H3 & H4).
      split; [exact H1|]. split; [exact (H2 Hdis1)|].
      split; [exact H3|]. split; [exact H4|]. lia.
    - split; [tauto|]. split; [exact Hdis1|]. auto. }
  destruct Hw2 as (Ha2 & Hd2 & Hn2 & Hf2 & Hsame).
  apply IH in Hrun as (n & Hnext & Hfetches & Hzero & Hiff & Hdis & Hlast).
  2:{ intros id. rewrite Ha2, Hn2, Hone, Hid.
      intros [Hin|[Hrange _]]; [apply Hold in Hin|]; lia. }
  2:{ exact Hd2. }
  rewrite Hn2, Hid in Hnext. rewrite Hf2, Hfe in Hfetches.
  exists (S n).
  split; [lia|]. split; [lia|]. split; [discriminate|].
  split; [|split; [exact Hdis|]].
  - intros id. rewrite Hiff, Ha2, Hn2, Hf2, Hone, Hid, Hfe. split.
    + intros [[Hin|[Hrange Hmsg]]|[Hrange [msg Hmsg]]]; [auto| |].
      * right. split; [lia|exact Hmsg].
      * right. split; [lia|]. exists msg.
        now replace (fetches w + (id - next_timer w))%nat
          with (S (fetches w) + (id - S (next_timer w)))%nat by lia.
    + intros [Hin|[Hrange [msg Hmsg]]]; [auto|].
      destruct (decide (id = next_timer w)) as [->|Hne].
      * left. right. split; [lia|eauto].
      * right. split; [lia|]. exists msg.
        now replace (S (fetches w) + (id - S (next_timer w)))%nat
          with (fetches w + (id - next_timer w))%nat by lia.
  - intros j msg [= <-] Hmsg.
    destruct n as [|j'].
    + destruct (Hzero eq_refl) as [-> Hlt]. rewrite (Hsame Hlt).
      rewrite Nat.add_0_r in Hmsg |- *. now apply Hlast1 with msg.
    + replace (next_timer w + S j')%nat with (next_timer w2 + j')%nat by lia.
      apply Hlast with msg; [reflexivity|].
      now replace (fetches w2 + j')%nat with (fetches w + S j')%nat by lia.
Qed.

(** X30. The timers a call leaves behind, neither cleared nor gone off
    during their own attempt, are exactly those of the attempts whose
    [fetch] was rejected by a failure of the network: an attempt that got a
    response or was cut by its own timer leaves none.  A timer left behind
    goes off on its own when its time is up, whatever the call is doing
    then: when the call ends each of them either has gone off or is still
    armed, none is both, and the one of the last attempt is still armed. *)
Theorem armed_timers_after_call :
  exists r w,
    apiFetch = Some (r, w)
    /\ (forall id : nat,
          id ∈ armed w ∪ expired w
          <-> (id < attempts w)%nat /\ exists msg, net id = NetworkFailure msg)
    /\ armed w ## expired w
    /\ (forall (id : nat) msg,
          attempts w = S id -> net id = NetworkFailure msg -> id ∈ armed w).
Proof.
  destruct (apiFetch_finishes apiBase apiKey net due path opts)
    as (r & w & Hrun & _).
  exists r, w. split; [exact Hrun|].
  unfold apiFetch in Hrun.
  pose proof Hrun as Hshape.
  apply retry_loop_run in Hshape as (n & Hn & _ & Htrace & _).
  apply retry_loop_timers in Hrun
    as (m & Hnext & Hfetches & _ & Hiff & Hdis & Hlast).
  2:{ cbn. intros id Hin. set_solver. }
  2:{ cbn. set_solver. }
  cbn in Hn, Htrace, Hnext, Hfetches, Hiff, Hlast.
  assert (Hatt : attempts w = n).
  { unfold attempts. rewrite Htrace. apply count_fetches_run. }
  assert (Hm : m = n) by lia. subst m.
  split; [|split; [exact Hdis|]].
  - intros id. rewrite Hiff, Hatt. split.
    + intros [Hin|[Hrange Hmsg]]; [set_solver|].
      rewrite Nat.sub_0_r in Hmsg. split; [lia|exact Hmsg].
    + intros [Hlt Hmsg]. right. rewrite Nat.sub_0_r. split; [lia|exact Hmsg].
  - intros id msg Hid Hmsg. rewrite Hatt in Hid.
    apply (Hlast id msg); [congruence|exact Hmsg].
Qed.

End MoreFacts.

(** * The extra properties at sample pages *)

(** X1 at a page without a key, when the backend hands out "uls_k1". *)
Lemma getApiKey_generates_once_witness :
  exists p',
    App.getApiKey (browser [Fulfilled key_response]) new_page
    = (Normal (JStr "uls_k1"), p')
    /\ fetched p' = [generate_request]
    /\ App.getApiKey (browser [Fulfilled key_response]) p'
       = (Normal (JStr "uls_k1"), p').
Proof.
  destruct (getApiKey_generates_once (browser [Fulfilled key_response])
              new_page key_response key_fields "uls_k1")
    as (p' & Hfirst & Hfetched & _ & _ & Hsecond).
  - left. reflexivity.
  - reflexivity.
  - reflexivity.
  - reflexivity.
  - discriminate.
  - exists p'. split; [exact Hfirst|]. split; [exact Hfetched|exact Hsecond].
Defined.

(** X3 at a page without a key, on a dead network. *)
Lemma getApiKey_failure_is_logged_witness :
  exists p',
    App.getApiKey (browser []) new_page = (Normal JNull, p')
    /\ localStorage p' = ∅
    /\ console p'
       = [("Failed to generate API Key", TypeError "Failed to fetch")].
Proof.
  destruct (getApiKey_failure_is_logged (browser []) new_page
              (TypeError "Failed to fetch"))
    as (key & p' & Hrun & _ & Hstore & _ & Hconsole).
  - left. reflexivity.
  - left. reflexivity.
  - exists p'. split; [|split; [exact Hstore|exact Hconsole]].
    rewrite Hrun. f_equal. f_equal.
    change (App.getApiKey (browser []) new_page)
      with (Normal JNull : Completion JsValue,
            set_console [("Failed to generate API Key", TypeError "Failed to fetch")]
              (set_fetched [generate_request] new_page)) in Hrun.
    now injection Hrun as <- _.
Defined.

(** X4 at a page without a key, when the backend answers success and no
    key. *)
Lemma getApiKey_success_without_key_witness :
  exists p',
    App.getApiKey (browser [Fulfilled keyless_response]) new_page
    = (Normal JUndefined, p')
    /\ App.getApiKey (browser [Fulfilled keyless_response]) p'
       = (Normal (JStr "undefined"), p').
Proof.
  destruct (getApiKey_success_without_key (browser [Fulfilled keyless_response])
              new_page keyless_response [("status", JStr "success")])
    as (p' & Hfirst & _ & Hsecond).
  - left. reflexivity.
  - reflexivity.
  - reflexivity.
  - reflexivity.
  - reflexivity.
  - exists p'. split; [exact Hfirst|exact Hsecond].
Defined.

(** X5 at a page with the key "uls_k1", for a request that fails with 502. *)
Lemma page_apiFetch_one_keyed_request_witness :
  exists c headers,
    App.apiFetch (browser [Fulfilled bad_gateway_response]) "/logs"
                 App.no_options known_page
    = (c, set_fetched [("/api/logs", mkFetchOptions None None (Some headers))]
                      known_page)
    /\ headers !! "X-API-KEY" = Some "uls_k1".
Proof.
  destruct (page_apiFetch_one_keyed_request
              (browser [Fulfilled bad_gateway_response]) known_page "uls_k1"
              "/logs" App.no_options)
    as (c & headers & Hrun & Hkey & _).
  - reflexivity.
  - discriminate.
  - exists c, headers. split; [exact Hrun|exact Hkey].
Defined.

(** X6 at a page without a key, on a dead network. *)
Lemma page_apiFetch_without_key_witness :
  exists c p',
    App.apiFetch (browser []) "/logs" App.no_options new_page = (c, p')
    /\ fetched p'
       = [generate_request; ("/api/logs", mkFetchOptions None None (Some ∅))].
Proof.
  destruct (page_apiFetch_without_key (browser []) new_page
              (TypeError "Failed to fetch") "/logs" App.no_options)
    as (c & p' & Hrun & Hfetched & _).
  - left. reflexivity.
  - reflexivity.
  - exists c, p'. split; [exact Hrun|exact Hfetched].
Defined.

(** X7 at a 422 answer with a [message], at a 502 page in HTML, and at a
    304 answer, which has no body. *)
Lemma page_apiFetch_http_error_witness :
  (App.apiFetch (browser [Fulfilled bad_input_response]) "/logs"
                App.no_options known_page).1
  = Throw (new_Error "422 bad input")
  /\ (App.apiFetch (browser [Fulfilled bad_gateway_response]) "/logs"
                   App.no_options known_page).1
     = Throw (TypeError
                "Failed to execute 'text' on 'Response': body stream already read")
  /\ (App.apiFetch (browser [Fulfilled not_modified_response]) "/logs"
                   App.no_options known_page).1
     = Throw (new_Error "304 Not Modified").
Proof.
  split; [|split].
  - destruct (page_apiFetch_http_error (browser [Fulfilled bad_input_response])
                known_page "uls_k1" "/logs" App.no_options bad_input_response)
      as (_ & Hmessage & _);
      [reflexivity|discriminate|reflexivity|reflexivity|].
    apply (Hmessage [("message", JStr "bad input")] "bad input");
      [reflexivity|reflexivity|discriminate].
  - destruct (page_apiFetch_http_error
                (browser [Fulfilled bad_gateway_response])
                known_page "uls_k1" "/logs" App.no_options bad_gateway_response)
      as (_ & _ & Hused & _);
      [reflexivity|discriminate|reflexivity|reflexivity|].
    apply (Hused syntax_error); reflexivity.
  - destruct (page_apiFetch_http_error
                (browser [Fulfilled not_modified_response])
                known_page "uls_k1" "/logs" App.no_options not_modified_response)
      as (_ & _ & _ & Hempty);
      [reflexivity|discriminate|reflexivity|reflexivity|].
    apply (Hempty empty_body_error); reflexivity.
Defined.



(** X10 at the empty array and at a text. *)
Lemma renderLogs_without_entries_witness :
  App.renderLogs (browser []) (JArr []) new_page
  = (Normal tt,
     set_logsTableBody (Some (mkTableBody App.no_logs_markup [])) new_page)
  /\ App.renderLogs (browser []) (JStr "none") new_page
     = (Throw (TypeError "arr.forEach is not a function"),
        set_logsTableBody (Some (mkTableBody "" [])) new_page).
Proof.
  destruct (renderLogs_without_entries (browser []) new_page
              (mkTableBody "" ["<td>old row</td>"]) eq_refl)
    as [Hempty Htext].
  split.
  - apply Hempty. right. left. reflexivity.
  - apply Htext. discriminate.
Defined.

(** X11 at an entry whose message is markup. *)
Lemma row_markup_keeps_message_verbatim_witness :
  exists row,
    App.row_markup (browser []) disk_full_log = Normal row
    /\ includes "<td><b>disk full</b></td>" row = true.
Proof.
  eexists. split; [reflexivity|].
  apply (row_markup_keeps_message_verbatim (browser [])
           [("timestamp", JNum 1700000000000); ("service", JStr "billing");
            ("message", JStr "<b>disk full</b>"); ("level", JStr "ERROR")]
           "<b>disk full</b>");
    reflexivity.
Defined.


(** X14 at a page with a key, on a dead network. *)
Lemma refreshLogs_failure_keeps_table_witness :
  exists p',
    App.refreshLogs (browser []) known_page = (Normal tt, p')
    /\ logsTableBody p' = Some (mkTableBody "" ["<td>old row</td>"])
    /\ apiStatus p'
       = Some (mkStatusElement "Fetch failed: Failed to fetch"
                               "status show error").
Proof.
  destruct (refreshLogs_failure_keeps_table (browser []) known_page "uls_k1"
              (mkStatusElement "" "status")
              (mkTableBody "" ["<td>old row</td>"])
              (TypeError "Failed to fetch"))
    as (p' & Hrun & _ & Htable & Hstatus).
  - reflexivity.
  - discriminate.
  - reflexivity.
  - reflexivity.
  - reflexivity.
  - exists p'. split; [exact Hrun|]. split; [exact Htable|exact Hstatus].
Defined.

(** X15 at a page where only blanks are typed in. *)
Lemma submitLog_blank_message_witness :
  App.submitLog (browser [Fulfilled key_response]) blank_message_page
  = (Normal tt, shown "Please enter a message" "error" blank_message_page).
Proof.
  apply (submitLog_blank_message (browser [Fulfilled key_response])
           blank_message_page).
  right. exists "   ". split; reflexivity.
Defined.

(** X16 at a page with a key and the message " disk full ". *)
Lemma submitLog_posts_then_refreshes_witness :
  App.submitLog (browser [Fulfilled key_response; Fulfilled two_logs_response])
                known_page
  = App.refreshLogs
      (browser [Fulfilled key_response; Fulfilled two_logs_response])
      (set_messageInput (Some "")
         (shown "Log submitted!" "success"
            (set_fetched
               [keyed_request "uls_k1" "/logs"
                  (log_post
                     (browser [Fulfilled key_response;
                               Fulfilled two_logs_response])
                     known_page "disk full")]
               (shown "Submitting..." "info" known_page)))).
Proof.
  apply (submitLog_posts_then_refreshes
           (browser [Fulfilled key_response; Fulfilled two_logs_response])
           known_page "uls_k1" " disk full " (JObj key_fields));
    [reflexivity|discriminate|reflexivity|discriminate|reflexivity].
Defined.

(** X17 at a page with a key, when the backend refuses the entry. *)
Lemma submitLog_failure_keeps_message_witness :
  exists p',
    App.submitLog (browser [Fulfilled bad_input_response]) known_page
    = (Normal tt, p')
    /\ messageInput p' = Some " disk full "
    /\ apiStatus p'
       = Some (mkStatusElement "Submit failed: 422 bad input"
                               "status show error").
Proof.
  destruct (submitLog_failure_keeps_message
              (browser [Fulfilled bad_input_response]) known_page "uls_k1"
              " disk full " (new_Error "422 bad input"))
    as (p' & Hrun & Hpage & Hmessage & _).
  - reflexivity.
  - discriminate.
  - reflexivity.
  - discriminate.
  - reflexivity.
  - exists p'. split; [exact Hrun|]. split; [exact Hmessage|].
    rewrite Hpage. reflexivity.
Defined.

(** X18 at a page with a key, when the backend serves the export. *)
Lemma exportCSV_downloads_the_body_witness :
  App.exportCSV (browser [Fulfilled csv_blob_response]) known_page
  = (Normal tt,
     shown "CSV Exported & Saved to server!" "success"
       (set_downloads [("logs.csv", archive_bytes)]
          (set_fetched [export_request "uls_k1"]
             (shown "Preparing Export..." "info" known_page)))).
Proof.
  apply (exportCSV_downloads_the_body (browser [Fulfilled csv_blob_response])
           known_page "uls_k1" csv_blob_response archive_bytes);
    [reflexivity|discriminate|reflexivity|reflexivity|reflexivity].
Defined.

(** X19 at a page without a key, on a dead network. *)
Lemma exportCSV_without_key_sends_null_witness :
  exists p',
    App.exportCSV (browser []) new_page = (Normal tt, p')
    /\ fetched p' = [generate_request; export_request "null"].
Proof.
  apply (exportCSV_without_key_sends_null (browser []) new_page
           (TypeError "Failed to fetch")); reflexivity.
Defined.

(** X20 at a 422 answer with a [message] and at a 502 page in HTML. *)
Lemma exportCSV_failure_text_witness :
  App.exportCSV (browser [Fulfilled bad_input_response]) known_page
  = (Normal tt,
     shown "Export failed: bad input" "error"
       (set_fetched [export_request "uls_k1"]
          (shown "Preparing Export..." "info" known_page)))
  /\ App.exportCSV (browser [Fulfilled bad_gateway_response]) known_page
     = (Normal tt,
        shown "Export failed: Export failed" "error"
          (set_fetched [export_request "uls_k1"]
             (shown "Preparing Export..." "info" known_page))).
Proof.
  split.
  - destruct (exportCSV_failure_text (browser [Fulfilled bad_input_response])
                known_page "uls_k1" bad_input_response)
      as [Hmessage _]; [reflexivity|discriminate|reflexivity|reflexivity|].
    apply (Hmessage [("message", JStr "bad input")] "bad input");
      [reflexivity|reflexivity|discriminate].
  - destruct (exportCSV_failure_text (browser [Fulfilled bad_gateway_response])
                known_page "uls_k1" bad_gateway_response)
      as [_ Hnot_json]; [reflexivity|discriminate|reflexivity|reflexivity|].
    apply (Hnot_json syntax_error). reflexivity.
Defined.

(** X23 at a JSON answer and at a page in HTML. *)
Lemma script_apiFetch_success_witness :
  (Script.apiFetch (browser [Fulfilled two_logs_response]) "/logs"
                   App.no_options new_page).1
  = Normal (Script.Parsed (JObj [("logs", JArr [disk_full_log; started_log])]))
  /\ (Script.apiFetch (browser [Fulfilled html_response]) "/logs"
                      App.no_options new_page).1
     = Normal (Script.Raw html_response).
Proof.
  split.
  - destruct (script_apiFetch_success (browser [Fulfilled two_logs_response])
                new_page "/logs" App.no_options two_logs_response)
      as [Hjson _]; [reflexivity|reflexivity|].
    apply (Hjson "application/json"); reflexivity.
  - destruct (script_apiFetch_success (browser [Fulfilled html_response])
                new_page "/logs" App.no_options html_response)
      as [_ Hraw]; [reflexivity|reflexivity|].
    apply Hraw. right. exists "text/html". split; reflexivity.
Defined.

(** X24 at a 422 answer with a [message] and at a 500 answer without. *)
Lemma script_apiFetch_http_error_witness :
  (Script.apiFetch (browser [Fulfilled bad_input_response]) "/logs"
                   App.no_options new_page).1
  = Throw (new_Error "bad input")
  /\ (Script.apiFetch (browser [Fulfilled server_error_response]) "/logs"
                      App.no_options new_page).1
     = Throw (new_Error "Internal Server Error").
Proof.
  split.
  - destruct (script_apiFetch_http_error (browser [Fulfilled bad_input_response])
                new_page "/logs" App.no_options bad_input_response)
      as (_ & Hmessage & _); [reflexivity|reflexivity|].
    apply (Hmessage [("message", JStr "bad input")] "bad input");
      [reflexivity|reflexivity|discriminate].
  - destruct (script_apiFetch_http_error
                (browser [Fulfilled server_error_response])
                new_page "/logs" App.no_options server_error_response)
      as (_ & _ & Hstatus); [reflexivity|reflexivity|].
    apply (Hstatus [("error", JStr "boom")]); reflexivity.
Defined.

(** X25 at a backend that answers with a page in HTML. *)
Lemma script_refreshLogs_non_json_witness :
  exists p',
    Script.refreshLogs (browser [Fulfilled html_response]) new_page
    = (Normal tt, p')
    /\ apiStatus p'
       = Some (mkStatusElement "Loaded 0 logs" "status show success").
Proof.
  destruct (script_refreshLogs_non_json (browser [Fulfilled html_response])
              new_page (mkStatusElement "" "status")
              (mkTableBody "" ["<td>old row</td>"]) html_response)
    as (p' & Hrun & _ & Hstatus); try reflexivity.
  exists p'. split; [exact Hrun|exact Hstatus].
Defined.

(** X26 at a page without the service input. *)
Lemma script_submitLog_missing_input_witness :
  exists text,
    Script.submitLog (browser [Fulfilled key_response]) no_service_page
    = (Normal tt, shown ("Submit failed: " +:+ text) "error" no_service_page)
    /\ fetched (shown ("Submit failed: " +:+ text) "error" no_service_page) = [].
Proof.
  apply (script_submitLog_missing_input (browser [Fulfilled key_response])
           no_service_page " disk full ").
  - reflexivity.
  - discriminate.
  - left. reflexivity.
Defined.

(** X27 at a page with every input and the message " disk full ". *)
Lemma script_submitLog_posts_untrimmed_witness :
  Script.submitLog
    (browser [Fulfilled key_response; Fulfilled two_logs_response]) new_page
  = Script.refreshLogs
      (browser [Fulfilled key_response; Fulfilled two_logs_response])
      (set_messageInput (Some "")
         (shown "Log submitted" "success"
            (set_fetched
               [("http://localhost:5000/api/logs",
                 Script.with_key
                   (Script.log_post
                      (browser [Fulfilled key_response;
                                Fulfilled two_logs_response])
                      (JObj [("service", JStr "billing");
                             ("level", JStr "ERROR");
                             ("message", JStr " disk full ");
                             ("server", JStr "");
                             ("trace_id", JStr "")])))]
               new_page))).
Proof.
  apply (script_submitLog_posts_untrimmed
           (browser [Fulfilled key_response; Fulfilled two_logs_response])
           new_page "billing" "ERROR" " disk full " "" "" key_response
           (Script.Parsed (JObj key_fields)));
    [reflexivity|reflexivity|reflexivity|reflexivity|reflexivity
    |discriminate|reflexivity|reflexivity].
Defined.

(** X28 at a 502 answer and at the export served as a blob. *)
Lemma script_exportCSV_outcomes_witness :
  Script.exportCSV (browser [Fulfilled bad_gateway_response]) new_page
  = (Normal tt,
     shown "Export failed: Export failed" "error"
       (set_fetched
          [("http://localhost:5000/api/logs/export",
            mkFetchOptions None None
              (Some (<[ "X-API-KEY" := "uls_c6f1942d398cffa112c51c5b10c8f257" ]>
                       ∅)))]
          (shown "Exporting..." "info" new_page)))
  /\ exists p',
       Script.exportCSV (browser [Fulfilled csv_blob_response]) new_page
       = (Normal tt, p')
       /\ downloads p' = [("logs.csv", archive_bytes)].
Proof.
  split.
  - destruct (script_exportCSV_outcomes
                (browser [Fulfilled bad_gateway_response]) new_page
                bad_gateway_response eq_refl) as [Hfailed _].
    apply Hfailed. reflexivity.
  - destruct (script_exportCSV_outcomes
                (browser [Fulfilled csv_blob_response]) new_page
                csv_blob_response eq_refl) as [_ Hserved].
    eexists. split; [apply (Hserved archive_bytes); reflexivity|].
    rewrite shown_downloads. reflexivity.
Defined.

(** X30 over a dead network with two retries allowed: all three attempts
    leave their timer behind.  With timers of 5 ms and waits of a minute and
    more, on a clock on which a timer goes off on the first occasion, the
    last one alone is still armed when the call ends; with timers of 30 s
    and waits of 10 and 20 ms, on a clock on which none goes off, all three
    are. *)
Lemma armed_timers_after_call_witness :
  (exists r w,
     apiFetch "/api" "key" (scripted []) fast_clock "/logs" leaky_opts
     = Some (r, w)
     /\ attempts w = 3%nat
     /\ 2%nat ∈ armed w
     /\ expired w = {[ 0%nat; 1%nat ]})
  /\ (exists r w,
        apiFetch "/api" "key" (scripted []) slow_clock "/logs" two_retries_opts
        = Some (r, w)
        /\ armed w = {[ 0%nat; 1%nat; 2%nat ]}
        /\ expired w = ∅).
Proof.
  split.
  - destruct (armed_timers_after_call "/api" "key" (scripted []) fast_clock
                "/logs" leaky_opts)
      as (r & w & Hrun & _ & _ & Hlast).
    assert (Hn : attempts w = 3%nat).
    { destruct (run_inv _ _ _ Hrun) as [_ ->]. reflexivity. }
    exists r, w. split; [exact Hrun|]. split; [exact Hn|]. split.
    + apply (Hlast 2%nat "Failed to fetch"); [exact Hn|reflexivity].
    + destruct (run_inv _ _ _ Hrun) as [_ ->]. vm_compute. reflexivity.
  - destruct (armed_timers_after_call "/api" "key" (scripted []) slow_clock
                "/logs" two_retries_opts)
      as (r & w & Hrun & _).
    exists r, w. split; [exact Hrun|].
    destruct (run_inv _ _ _ Hrun) as [_ ->].
    split; vm_compute; reflexivity.
Defined.
